(** * The Graphcool CLI client and the migration-step schema

    A shallow embedding of [cli/packages/graphcool-cli-engine/src/Client/Client.ts]
    and of the server-side [MigrationStepType] object, with the properties
    the specification states about them.

    Conventions of the embedding.
    - An [async] method is a function from the world it starts in to a
      [Result]: the value it resolves with, or the exception it rejects
      with, together with the world it leaves behind.
    - The world records what the method did: how many GraphQL requests
      and fetches left the process, and the chronological list of
      observable events (requests, fetches, timers, [out.error] calls).
    - The network is an oracle: the outcome of the n-th request is a
      function of n (and of the target where a method talks to several).
    - [while] loops and the recursive retry of the wrapper take a fuel
      argument; [OutOfFuel] means "still running when the budget ended",
      never a result of the program.
    - Calls to [debug] leave no trace and are not modelled. *)

From Stdlib Require Import String Ascii List ZArith Lia Bool Arith PeanoNat.
From Stdlib Require Import DecimalString DecimalNat.
Import ListNotations.

Local Open Scope string_scope.
Local Open Scope list_scope.

(** ** JavaScript string methods used by the client *)

Module JsString.

(** [s.startsWith(p)] *)
Definition startsWith (s p : string) : bool := String.prefix p s.

(** [s.includes(sub)]: [sub] occurs at some offset of [s]. *)
Fixpoint includes (s sub : string) : bool :=
  if String.prefix sub s then true
  else match s with
       | EmptyString => false
       | String _ rest => includes rest sub
       end.

(** Strings are sequences of code units; the model covers the code
    units below 256.  In that range [toLowerCase] moves A-Z and the
    Latin-1 capitals (U+00C0-U+00DE without the multiplication sign
    U+00D7) up by 32 and leaves everything else alone. *)
Definition toLowerCaseUnit (c : ascii) : ascii :=
  let n := nat_of_ascii c in
  if ((65 <=? n) && (n <=? 90)
      || (192 <=? n) && (n <=? 222) && negb (n =? 215))%nat
  then ascii_of_nat (n + 32)
  else c.

Fixpoint toLowerCase (s : string) : string :=
  match s with
  | EmptyString => EmptyString
  | String c rest => String (toLowerCaseUnit c) (toLowerCase rest)
  end.

(** White space and line terminators that [trim] strips, below 256:
    TAB, LF, VT, FF, CR, SP and NBSP. *)
Definition isWhiteSpace (c : ascii) : bool :=
  let n := nat_of_ascii c in
  ((9 <=? n) && (n <=? 13) || (n =? 32) || (n =? 160))%nat.

Fixpoint trimStart (s : string) : string :=
  match s with
  | EmptyString => EmptyString
  | String c rest => if isWhiteSpace c then trimStart rest else s
  end.

Fixpoint trimEnd (s : string) : string :=
  match s with
  | EmptyString => EmptyString
  | String c rest =>
      match trimEnd rest with
      | EmptyString => if isWhiteSpace c then EmptyString else String c EmptyString
      | kept => String c kept
      end
  end.

(** [s.trim()] *)
Definition trim (s : string) : string := trimEnd (trimStart s).

(** The double quote, for the messages that carry one. *)
Definition dquote : string := String (ascii_of_nat 34) EmptyString.

End JsString.

(** ** Exceptions *)

(** An error object as the client inspects it (every value thrown is
    taken to be one): [e.message], and the messages of
    [e.response.errors] when the error carries a GraphQL response ([None]
    when [e.response] or [e.response.errors] is undefined). *)
Record JsError : Type := mkJsError {
  message : string;
  response : option (list string)
}.

(** [new Error(text)] *)
Definition Error (text : string) : JsError :=
  {| message := text; response := None |}.

(** What a method can reject with: an error object that was thrown, or the
    [TypeError] the runtime raises when a property of [undefined] or
    [null] is read. *)
Inductive Exn : Type :=
| Raised (e : JsError)
| TypeError.

(** ** The world *)

Inductive Event : Type :=
| EvRequest (endpoint : string)      (* a GraphQL request sent to an endpoint *)
| EvFetch (url authorization body : string) (* a POST issued through fetch *)
| EvSleep (ms : Z)                   (* setTimeout(r, ms) awaited *)
| EvOutError (text : string).        (* this.out.error(text) *)

Record World : Type := mkWorld {
  sent : nat;             (* requests and fetches issued so far *)
  events : list Event     (* what happened, oldest first *)
}.

Definition world0 : World := {| sent := 0; events := [] |}.

Definition emit (ev : Event) (w : World) : World :=
  {| sent := sent w; events := events w ++ [ev] |}.

Definition issued (ev : Event) (w : World) : World :=
  {| sent := S (sent w); events := events w ++ [ev] |}.

(** [await new Promise(r => setTimeout(r, ms))] *)
Definition sleep (ms : Z) (w : World) : World := emit (EvSleep ms) w.

(** [this.out.error(text)]: [Output] lives outside this file; the call is
    modelled by the event it leaves and control comes back to the caller. *)
Definition out_error (text : string) (w : World) : World := emit (EvOutError text) w.

(** Outcome of one request at the network: the data of the response, or
    the error the GraphQL client throws. *)
Inductive NetOutcome (T : Type) : Type :=
| NetOk (data : T)
| NetErr (e : JsError).
Arguments NetOk {T} data.
Arguments NetErr {T} e.

Inductive Result (A : Type) : Type :=
| Returned (a : A) (w : World)
| Threw (e : Exn) (w : World)
| OutOfFuel.
Arguments Returned {A} a w.
Arguments Threw {A} e w.
Arguments OutOfFuel {A}.

(** A computation: from the world it starts in to its result. *)
Definition M (A : Type) : Type := World -> Result A.

Definition bind {A B : Type} (m : M A) (k : A -> M B) : M B :=
  fun w =>
    match m w with
    | Returned a w1 => k a w1
    | Threw e w1 => Threw e w1
    | OutOfFuel => OutOfFuel
    end.

Notation "'await' x <- m ;; k" := (bind m (fun x => k))
  (at level 61, x pattern, m at next level, right associativity).

(** Destructuring the value a request resolved with: [const { f } = v]
    throws a [TypeError] when [v] is [undefined]. *)
Definition destructure {T : Type} (v : option T) : M T :=
  match v with
  | Some data => Returned data
  | None => Threw TypeError
  end.

(** ** Clusters and the environment *)

Module Cluster.
Record t : Type := mk {
  name : string;
  token : string;
  deployEndpoint : string   (* cluster.getDeployEndpoint() *)
}.
End Cluster.

Module Environment.
Record t : Type := mk {
  activeCluster : Cluster.t;
  clusters : list Cluster.t
}.
End Environment.

(** ** Records that travel between the service and the caller *)

Module Project.
Record t : Type := mk { name : string; stage : string }.
End Project.

Module PAT.
Record t : Type := mk { id : string; name : string; token : string }.
End PAT.

Module FunctionInfo.
Record Stats : Type := mkStats { requestCount : Z; errorCount : Z }.
Record t : Type := mk {
  name : string;
  id : string;
  type : string;
  stats : Stats;
  typename : string     (* __typename *)
}.
End FunctionInfo.

Module MigrationStatus.
Record t : Type := mk { revision : Z; hasBeenApplied : bool }.
End MigrationStatus.

(** Relay connections: [{ edges: [{ node }] }]. *)
Record Edge (A : Type) : Type := mkEdge { node : A }.
Arguments mkEdge {A} node.
Arguments node {A} e.

Record Connection (A : Type) : Type := mkConnection { edges : list (Edge A) }.
Arguments mkConnection {A} edges.
Arguments edges {A} c.

(** Response shapes, one per query. *)
Record ListProjectsPayload : Type := mkListProjectsPayload {
  payload_listProjects : list Project.t
}.

Record ClusterProjectPayload : Type := mkClusterProjectPayload {
  payload_project : option Project.t      (* null when the cluster has no such project *)
}.

Record MigrationStatusPayload : Type := mkMigrationStatusPayload {
  migrationStatus : MigrationStatus.t
}.

Record ProjectPatPayload : Type := mkProjectPatPayload {
  permanentAuthTokens : option (Connection PAT.t)  (* viewer.project.permanentAuthTokens *)
}.

Record FunctionsPayload : Type := mkFunctionsPayload {
  functions : Connection FunctionInfo.t            (* viewer.project.functions *)
}.

(** [normalizeName] *)
Definition normalizeName (name : string) : string :=
  JsString.trim (JsString.toLowerCase name).

(** ** The client *)

Section Client.

(** [this.env], and what the file takes from its libraries: the styling
    of [chalk], the endpoints a cluster computes, and [JSON.parse]
    ([None] when it throws). *)
Variable env : Environment.t.
Variable chalk_bold_green : string -> string.
Variable getApiEndpoint getExportEndpoint getImportEndpoint :
  Cluster.t -> string -> string -> string.
Variable Json : Type.
Variable JSON_parse : string -> option Json.

(** [getClient(cluster).request(...)]: one request to the deploy
    endpoint of the cluster, answered by the oracle. *)
Definition cluster_request {T : Type} (cluster : Cluster.t)
    (outcome : NetOutcome T) (w : World) : NetOutcome T * World :=
  (outcome, issued (EvRequest (Cluster.deployEndpoint cluster)) w).

(** [this.client.request(query, variables)]: the wrapper around the
    client of the active cluster. *)
Fixpoint client_request {T : Type} (net : nat -> NetOutcome T)
    (fuel : nat) (w : World) : Result (option T) :=
  match fuel with
  | O => OutOfFuel
  | S fuel' =>
      match cluster_request (Environment.activeCluster env) (net (sent w)) w with
      | (NetOk data, w1) => Returned (Some data) w1
      | (NetErr e, w1) =>
          if JsString.includes (message e) "No service with id" then
            match response e with
            | Some (m :: _) =>
                Returned None
                  (out_error
                     (m ++ " Please check if you are logged in to the right account.")%string
                     w1)
            | _ => Threw TypeError w1
            end
          else if JsString.startsWith (message e) "No valid session" then
            client_request net fuel' w1
          else if JsString.includes (message e) "ECONNREFUSED"
                  && (JsString.includes (message e) "localhost"
                      || JsString.includes (message e) "127.0.0.1") then
            Returned None
              (out_error
                 ("Could not connect to local cluster. Please use "
                  ++ chalk_bold_green "graphcool local up"
                  ++ " to start your local Graphcool cluster.")%string
                 w1)
          else Threw (Raised e) w1
      end
  end.

(** [`Bearer ${token}`], with the text [undefined] for a missing token. *)
Definition bearer (token : option string) : string :=
  ("Bearer " ++ match token with Some t => t | None => "undefined" end)%string.

(** [await fetch(url, { method: 'post', headers, body })] followed by
    [await result.text()]: one POST, answered by the oracle with the text
    of the body or with the error [fetch] rejects with. *)
Definition fetch_text (fetch : nat -> NetOutcome string)
    (url : string) (token : option string) (body : string) : M string :=
  fun w =>
  let w1 := issued (EvFetch url (bearer token) body) w in
  match fetch (sent w) with
  | NetOk text => Returned text w1
  | NetErr e => Threw (Raised e) w1
  end.

(** [download] *)
Definition download (fetch : nat -> NetOutcome string)
    (serviceName stage exportData : string) (token : option string) : M Json :=
  let endpoint := getExportEndpoint (Environment.activeCluster env) serviceName stage in
  await text <- fetch_text fetch endpoint token exportData ;;
  match JSON_parse text with
  | Some value => Returned value
  | None => Threw (Raised (Error text))
  end.

(** [upload] *)
Definition upload (fetch : nat -> NetOutcome string)
    (serviceName stage exportData : string) (token : option string) : M Json :=
  await text <-
    fetch_text fetch
      (getImportEndpoint (Environment.activeCluster env) serviceName stage)
      token exportData ;;
  match JSON_parse text with
  | Some value => Returned value
  | None => Threw (Raised (Error text))
  end.

(** [JSON.stringify({ query: `mutation {...}` })]: the line breaks of the
    template literal are escaped. *)
Definition reset_body : string :=
  ("{" ++ JsString.dquote ++ "query" ++ JsString.dquote ++ ":" ++ JsString.dquote
   ++ "mutation {\n          resetData\n        }" ++ JsString.dquote ++ "}")%string.

(** [reset] *)
Definition reset (fetch : nat -> NetOutcome string)
    (serviceName stage : string) (token : option string) : M Json :=
  await text <-
    fetch_text fetch
      (getApiEndpoint (Environment.activeCluster env) serviceName stage)
      token reset_body ;;
  match JSON_parse text with
  | Some value => Returned value
  | None => Threw (Raised (Error text))
  end.

(** [listProjects] *)
Definition listProjects (net : nat -> NetOutcome ListProjectsPayload)
    (fuel : nat) : M (list Project.t) :=
  await v <- client_request net fuel ;;
  await data <- destructure v ;;
  Returned (payload_listProjects data).

(** [getCluster]: the loop over [this.env.clusters], then the verdict. *)
Fixpoint getCluster_scan (net : nat -> Cluster.t -> NetOutcome ClusterProjectPayload)
    (todo foundClusters : list Cluster.t) (w : World)
    : list Cluster.t * World :=
  match todo with
  | [] => (foundClusters, w)
  | cluster :: rest =>
      match cluster_request cluster (net (sent w) cluster) w with
      | (NetOk data, w1) =>
          match payload_project data with
          | Some _ => getCluster_scan net rest (foundClusters ++ [cluster]) w1
          | None => getCluster_scan net rest foundClusters w1
          end
      | (NetErr _, w1) => getCluster_scan net rest foundClusters w1
      end
  end.

Definition ambiguous_message (name stage : string) (foundClusters : list Cluster.t) : string :=
  let clusterNames := String.concat ", " (map Cluster.name foundClusters) in
  ("The service name / stage combination " ++ JsString.dquote ++ name ++ "@" ++ stage
   ++ JsString.dquote ++ " is ambigious. It exists in clusters " ++ clusterNames)%string.

Definition getCluster (net : nat -> Cluster.t -> NetOutcome ClusterProjectPayload)
    (name stage : string) : M (option Cluster.t) :=
  fun w =>
  let (foundClusters, w1) := getCluster_scan net (Environment.clusters env) [] w in
  if (length foundClusters =? 1)%nat then Returned (hd_error foundClusters) w1
  else if (1 <? length foundClusters)%nat then
    Threw (Raised (Error (ambiguous_message name stage foundClusters))) w1
  else Returned None w1.

Definition getClusterSafe (net : nat -> Cluster.t -> NetOutcome ClusterProjectPayload)
    (name stage : string) : M Cluster.t :=
  await cluster <- getCluster net name stage ;;
  match cluster with
  | None =>
      Threw (Raised (Error ("No cluster for " ++ JsString.dquote ++ name ++ "@" ++ stage
                            ++ JsString.dquote
                            ++ " found. Please make sure to deploy the stage " ++ stage)%string))
  | Some c => Returned c
  end.

(** [waitForLocalDocker]: [request] of graphql-request, straight to the
    endpoint, inside [try]/[catch]; then the timer; then the test of
    [valid]. *)
Fixpoint waitForLocalDocker_loop {T : Type} (net : nat -> NetOutcome T)
    (endpoint : string) (fuel : nat) (valid : bool) (w : World) : Result unit :=
  if valid then Returned tt w
  else match fuel with
       | O => OutOfFuel
       | S fuel' =>
           let w1 := issued (EvRequest endpoint) w in
           let valid' := match net (sent w) with
                         | NetOk _ => true
                         | NetErr _ => false
                         end in
           waitForLocalDocker_loop net endpoint fuel' valid' (sleep 500 w1)
       end.

Definition waitForLocalDocker {T : Type} (net : nat -> NetOutcome T)
    (endpoint : string) (fuel : nat) (w : World) : Result unit :=
  waitForLocalDocker_loop net endpoint fuel false w.

(** The test of [waitForMigration]. *)
Definition migration_done (revision : Z) (status : MigrationStatus.t) : bool :=
  (MigrationStatus.revision status >=? revision)%Z && MigrationStatus.hasBeenApplied status.

(** [waitForMigration] *)
Fixpoint waitForMigration (net : nat -> NetOutcome MigrationStatusPayload)
    (revision : Z) (fuel : nat) (w : World) : Result unit :=
  match fuel with
  | O => OutOfFuel
  | S fuel' =>
      (await v <- client_request net fuel ;;
       await data <- destructure v ;;
       if migration_done revision (migrationStatus data) then Returned tt
       else fun w1 => waitForMigration net revision fuel' (sleep 500 w1)) w
  end.

(** [getPats] *)
Definition getPats (net : nat -> NetOutcome ProjectPatPayload)
    (fuel : nat) : M (list PAT.t) :=
  await v <- client_request net fuel ;;
  await data <- destructure v ;;
  match permanentAuthTokens data with
  | None => Returned []
  | Some tokens => Returned (map (fun edge => node edge) (edges tokens))
  end.

(** [getFunctions] and [getFunction] *)
Definition getFunctions (net : nat -> NetOutcome FunctionsPayload)
    (fuel : nat) : M (list FunctionInfo.t) :=
  await v <- client_request net fuel ;;
  await data <- destructure v ;;
  Returned (map (fun edge => node edge) (edges (functions data))).

Definition getFunction (net : nat -> NetOutcome FunctionsPayload)
    (functionName : string) (fuel : nat) : M (option FunctionInfo.t) :=
  await functions <- getFunctions net fuel ;;
  let normalizedFunctionName := normalizeName functionName in
  Returned
    (find (fun fn => (normalizeName (FunctionInfo.name fn) =? normalizedFunctionName)%string)
          functions).

End Client.

(** ** The other methods of the client *)

Module SimpleProjectInfo.
Record t : Type := mk { name : string }.
End SimpleProjectInfo.

Module FunctionLog.
Record t : Type := mk {
  id : string;
  requestId : string;
  duration : Z;
  status : string;
  timestamp : string;
  message : string
}.
End FunctionLog.

(** Response shapes of the remaining queries. A field the code tests
    before it reads further is optional; the others are taken as the
    query selects them. *)
Record AddProjectPayload : Type := mkAddProjectPayload {
  addProject_project : SimpleProjectInfo.t          (* addProject.project *)
}.

Record DeployUrlPayload : Type := mkDeployUrlPayload {
  getTemporaryDeployUrl_url : string                (* getTemporaryDeployUrl.url *)
}.

Record DeployResponse (DeployPayload : Type) : Type := mkDeployResponse {
  payload_deploy : DeployPayload                    (* deploy *)
}.
Arguments mkDeployResponse {DeployPayload} payload_deploy.
Arguments payload_deploy {DeployPayload} d.

Record ProjectNamePayload : Type := mkProjectNamePayload {
  viewer_project_name : string                      (* viewer.project.name *)
}.

Record ExportPayload : Type := mkExportPayload {
  exportData_url : string                           (* exportData.url *)
}.

Module FunctionLogs.
Record Node : Type := mkNode {
  logs : option (Connection FunctionLog.t)          (* absent when the node is no Function *)
}.
Record Payload : Type := mkPayload {
  node : option Node                                (* null for an unknown id *)
}.
End FunctionLogs.

Module AllFunctionLogs.
Record FunctionNode : Type := mkFunctionNode {
  logs : Connection FunctionLog.t
}.
Record Functions : Type := mkFunctions {
  edges : option (list (Edge FunctionNode))
}.
Record Project : Type := mkProject {
  functions : option Functions
}.
Record Payload : Type := mkPayload {
  project : option Project                          (* viewer.project *)
}.
End AllFunctionLogs.

Record DeleteResult : Type := mkDeleteResult { deletedId : string }.

(** A JavaScript object used as a map from strings: its own enumerable
    properties in the order [Object.keys] lists them. Assigning to a key
    the object has replaces the value in place; assigning to a new key
    appends. (Keys that spell an array index are enumerated first by the
    runtime; the objects met here have none.) *)
Module JsObject.

Definition t (V : Type) : Type := list (string * V).

Definition empty {V : Type} : t V := [].

(** [o[key]] *)
Fixpoint get {V : Type} (o : t V) (key : string) : option V :=
  match o with
  | [] => None
  | (k, v) :: rest => if (k =? key)%string then Some v else get rest key
  end.

(** [o[key] = v] *)
Fixpoint set {V : Type} (o : t V) (key : string) (v : V) : t V :=
  match o with
  | [] => [(key, v)]
  | (k, old) :: rest =>
      if (k =? key)%string then (k, v) :: rest else (k, old) :: set rest key v
  end.

(** [Object.keys(o)] *)
Definition keys {V : Type} (o : t V) : list string := map fst o.

End JsObject.

(** Arrays: [reduce] with an initial value and [map], whose callbacks
    receive the index as well. *)
Module JsArray.

Fixpoint reduceFrom {A B : Type} (callback : B -> A -> nat -> B)
    (l : list A) (index : nat) (prev : B) : B :=
  match l with
  | [] => prev
  | current :: rest => reduceFrom callback rest (S index) (callback prev current index)
  end.

Definition reduce {A B : Type} (callback : B -> A -> nat -> B) (l : list A) (initial : B) : B :=
  reduceFrom callback l 0 initial.

Fixpoint mapFrom {A B : Type} (callback : A -> nat -> B) (l : list A) (index : nat) : list B :=
  match l with
  | [] => []
  | x :: rest => callback x index :: mapFrom callback rest (S index)
  end.

Definition map {A B : Type} (callback : A -> nat -> B) (l : list A) : list B :=
  mapFrom callback l 0.

End JsArray.

(** An index in a template literal: its decimal numeral. *)
Definition indexToString (index : nat) : string :=
  NilZero.string_of_uint (Nat.to_uint index).

Definition newline : string := String (ascii_of_nat 10) EmptyString.

(** The pieces [deleteProjects] builds before it sends its request, each
    under the name of the constant that holds it. *)
Definition deleteProjects_inputArguments (projectIds : list string) : string :=
  JsArray.reduce
    (fun prev current index =>
       (prev ++ "$projectId" ++ indexToString index ++ ": String!"
        ++ (if (index <? length projectIds - 1)%nat then ", " else EmptyString))%string)
    projectIds EmptyString.

Definition deleteProjects_singleMutations (projectIds : list string) : list string :=
  JsArray.map
    (fun projectId index =>
       ("
      " ++ projectId ++ ": deleteProject(input:{
          projectId: $projectId" ++ indexToString index ++ ",
          clientMutationId: " ++ JsString.dquote ++ "asd" ++ JsString.dquote ++ "
        }) {
          deletedId
      }")%string)
    projectIds.

Definition deleteProjects_mutation (projectIds : list string) : string :=
  let header := ("mutation (" ++ deleteProjects_inputArguments projectIds ++ ") ")%string in
  let body := String.concat newline (deleteProjects_singleMutations projectIds) in
  (header ++ " { " ++ newline ++ body ++ " " ++ newline ++ "}")%string.

Definition deleteProjects_variables (projectIds : list string) : JsObject.t string :=
  JsArray.reduce
    (fun prev current index =>
       JsObject.set prev ("projectId" ++ indexToString index)%string current)
    projectIds JsObject.empty.

(** [keys.map(key => result[key].deletedId)]: reading [deletedId] off a
    missing entry is a [TypeError]. *)
Fixpoint deletedIds (result : JsObject.t DeleteResult) (keys : list string) : M (list string) :=
  match keys with
  | [] => Returned []
  | projectId :: rest =>
      match JsObject.get result projectId with
      | Some entry =>
          await others <- deletedIds result rest ;;
          Returned (deletedId entry :: others)
      | None => Threw TypeError
      end
  end.

Section OtherMethods.

Variable env : Environment.t.
Variable chalk_bold_green : string -> string.

(** [addProject] *)
Definition addProject (net : nat -> NetOutcome AddProjectPayload)
    (fuel : nat) : M SimpleProjectInfo.t :=
  await v <- client_request env chalk_bold_green net fuel ;;
  await data <- destructure v ;;
  Returned (addProject_project data).

(** [getDeployUrl] *)
Definition getDeployUrl (net : nat -> NetOutcome DeployUrlPayload)
    (fuel : nat) : M string :=
  await v <- client_request env chalk_bold_green net fuel ;;
  await data <- destructure v ;;
  Returned (getTemporaryDeployUrl_url data).

(** [deploy] *)
Definition deploy {DeployPayload : Type} (net : nat -> NetOutcome (DeployResponse DeployPayload))
    (fuel : nat) : M DeployPayload :=
  await v <- client_request env chalk_bold_green net fuel ;;
  await data <- destructure v ;;
  Returned (payload_deploy data).

(** [getClusterSafe] is with [getCluster], above. *)

(** [getFunctionLogs] *)
Definition getFunctionLogs (net : nat -> NetOutcome FunctionLogs.Payload)
    (fuel : nat) : M (option (list FunctionLog.t)) :=
  await v <- client_request env chalk_bold_green net fuel ;;
  await data <- destructure v ;;
  match FunctionLogs.node data with
  | Some functionNode =>
      match FunctionLogs.logs functionNode with
      | Some logs => Returned (Some (map (fun edge => node edge) (edges logs)))
      | None => Returned None
      end
  | None => Returned None
  end.

(** [getAllFunctionLogs]: lodash's [flatMap] of an array of arrays, with
    its default iteratee, concatenates them. *)
Definition getAllFunctionLogs (net : nat -> NetOutcome AllFunctionLogs.Payload)
    (fuel : nat) : M (option (list FunctionLog.t)) :=
  await v <- client_request env chalk_bold_green net fuel ;;
  await data <- destructure v ;;
  match AllFunctionLogs.project data with
  | Some project =>
      match AllFunctionLogs.functions project with
      | Some functions =>
          match AllFunctionLogs.edges functions with
          | Some functionEdges =>
              Returned
                (Some (concat
                         (map (fun functionEdge =>
                                 map (fun logEdge => node logEdge)
                                     (edges (AllFunctionLogs.logs (node functionEdge))))
                              functionEdges)))
          | None => Returned None
          end
      | None => Returned None
      end
  | None => Returned None
  end.

(** [getProjectName] *)
Definition getProjectName (net : nat -> NetOutcome ProjectNamePayload)
    (fuel : nat) : M string :=
  await v <- client_request env chalk_bold_green net fuel ;;
  await data <- destructure v ;;
  Returned (viewer_project_name data).

(** [deleteProjects]: the service answers the mutation and the variables
    it is sent. *)
Definition deleteProjects
    (net : nat -> string -> JsObject.t string -> NetOutcome (JsObject.t DeleteResult))
    (projectIds : list string) (fuel : nat) : M (list string) :=
  let mutation := deleteProjects_mutation projectIds in
  let variables := deleteProjects_variables projectIds in
  await v <- client_request env chalk_bold_green (fun n => net n mutation variables) fuel ;;
  await result <- destructure v ;;
  deletedIds result (JsObject.keys result).

(** [exportProjectData] *)
Definition exportProjectData (net : nat -> NetOutcome ExportPayload)
    (fuel : nat) : M string :=
  await v <- client_request env chalk_bold_green net fuel ;;
  await data <- destructure v ;;
  Returned (exportData_url data).

End OtherMethods.

(** ** The GraphQL fragment the client sends *)

Module GraphQL.

(** A selection: a field, possibly aliased and with a selection set of
    its own, or an inline fragment [... on T { ... }]. *)
#[warnings="-register-all"]
Inductive Selection : Type :=
| Field (alias : option string) (name : string) (selectionSet : list Selection)
| InlineFragment (typeCondition : string) (selectionSet : list Selection).

Record FragmentDefinition : Type := mkFragment {
  fragmentName : string;
  onType : string;
  selections : list Selection
}.

Definition leaf (name : string) : Selection := Field None name [].
Definition aliased (alias name : string) : Selection := Field (Some alias) name [].

(** Every inline fragment of a selection, with its type condition. *)
Fixpoint inlineFragments (s : Selection) : list (string * list Selection) :=
  match s with
  | Field _ _ sub => flat_map inlineFragments sub
  | InlineFragment ty sub => (ty, sub) :: flat_map inlineFragments sub
  end.

(** The names of the fields a selection set selects: the name of the
    field on the server, not the alias the response carries. *)
Fixpoint fieldNames (sub : list Selection) : list string :=
  match sub with
  | [] => []
  | Field _ name _ :: rest => name :: fieldNames rest
  | InlineFragment _ _ :: rest => fieldNames rest
  end.

(** *** Reading a fragment from its text *)

Inductive Token : Type :=
| TName (s : string)
| TBraceL
| TBraceR
| TColon
| TSpread.

Definition isNameChar (c : ascii) : bool :=
  let n := nat_of_ascii c in
  ((48 <=? n) && (n <=? 57) || (65 <=? n) && (n <=? 90)
   || (97 <=? n) && (n <=? 122) || (n =? 95))%nat.

Definition flush (word : string) (out : list Token) : list Token :=
  match word with
  | EmptyString => out
  | _ => out ++ [TName word]
  end.

(** One pass over the text; [word] is the name being read. Anything
    that is neither a name character nor punctuation separates. *)
Fixpoint lex (text word : string) (out : list Token) : list Token :=
  match text with
  | EmptyString => flush word out
  | String c rest =>
      if isNameChar c then lex rest (word ++ String c EmptyString)%string out
      else if Ascii.eqb c "{" then lex rest EmptyString (flush word out ++ [TBraceL])
      else if Ascii.eqb c "}" then lex rest EmptyString (flush word out ++ [TBraceR])
      else if Ascii.eqb c ":" then lex rest EmptyString (flush word out ++ [TColon])
      else if Ascii.eqb c "." then
        match rest with
        | String "." (String "." rest') =>
            lex rest' EmptyString (flush word out ++ [TSpread])
        | _ => lex rest EmptyString (flush word out)
        end
      else lex rest EmptyString (flush word out)
  end.

(** Selections up to the closing brace, and the tokens after it. *)
Fixpoint parseSelections (fuel : nat) (ts : list Token)
    : option (list Selection * list Token) :=
  match fuel with
  | O => None
  | S fuel' =>
      let field alias name rest :=
        match rest with
        | TBraceL :: inner =>
            match parseSelections fuel' inner with
            | Some (sub, rest1) =>
                match parseSelections fuel' rest1 with
                | Some (more, rest2) => Some (Field alias name sub :: more, rest2)
                | None => None
                end
            | None => None
            end
        | _ =>
            match parseSelections fuel' rest with
            | Some (more, rest1) => Some (Field alias name [] :: more, rest1)
            | None => None
            end
        end in
      match ts with
      | TBraceR :: rest => Some ([], rest)
      | TSpread :: TName kw :: TName ty :: TBraceL :: inner =>
          if (kw =? "on")%string then
            match parseSelections fuel' inner with
            | Some (sub, rest1) =>
                match parseSelections fuel' rest1 with
                | Some (more, rest2) => Some (InlineFragment ty sub :: more, rest2)
                | None => None
                end
            | None => None
            end
          else None
      | TName alias :: TColon :: TName name :: rest => field (Some alias) name rest
      | TName name :: rest => field None name rest
      | _ => None
      end
  end.

Definition parseFragment (text : string) : option FragmentDefinition :=
  let ts := lex text EmptyString [] in
  match ts with
  | TName kw :: TName name :: TName on :: TName ty :: TBraceL :: body =>
      if ((kw =? "fragment") && (on =? "on"))%string then
        match parseSelections (length ts) body with
        | Some (sels, []) => Some (mkFragment name ty sels)
        | _ => None
        end
      else None
  | _ => None
  end.

End GraphQL.

(** [MIGRATION_FRAGMENT], as the template literal of the source. *)
Definition MIGRATION_FRAGMENT : string := "
fragment MigrationFragment on Migration {
  revision
  steps {
    type
    __typename
    ... on CreateEnum {
      name
      ce_values: values
    }
    ... on CreateField {
      model
      name
      cf_typeName: typeName
      cf_isRequired: isRequired
      cf_isList: isList
      cf_isUnique: unique
      cf_relation: relation
      cf_defaultValue: default
      cf_enum: enum
    }
    ... on CreateModel {
      name
    }
    ... on CreateRelation {
      name
      leftModel
      rightModel
    }
    ... on DeleteEnum {
      name
    }
    ... on DeleteField {
      model
      name
    }
    ... on DeleteModel {
      name
    }
    ... on DeleteRelation {
      name
    }
    ... on UpdateEnum {
      name
      newName
      values
    }
    ... on UpdateField {
      model
      name
      newName
      typeName
      isRequired
      isList
      isUnique: unique
      relation
      default
      enum
    }
    ... on UpdateModel {
      name
      um_newName: newName
    }
  }
  hasBeenApplied
}
".

(** The same fragment as a syntax tree. *)
Definition MigrationFragment : GraphQL.FragmentDefinition :=
  let leaf := GraphQL.leaf in
  let aliased := GraphQL.aliased in
  let on := GraphQL.InlineFragment in
  GraphQL.mkFragment "MigrationFragment" "Migration"
    [ leaf "revision";
      GraphQL.Field None "steps"
        [ leaf "type";
          leaf "__typename";
          on "CreateEnum" [ leaf "name"; aliased "ce_values" "values" ];
          on "CreateField"
            [ leaf "model"; leaf "name";
              aliased "cf_typeName" "typeName";
              aliased "cf_isRequired" "isRequired";
              aliased "cf_isList" "isList";
              aliased "cf_isUnique" "unique";
              aliased "cf_relation" "relation";
              aliased "cf_defaultValue" "default";
              aliased "cf_enum" "enum" ];
          on "CreateModel" [ leaf "name" ];
          on "CreateRelation" [ leaf "name"; leaf "leftModel"; leaf "rightModel" ];
          on "DeleteEnum" [ leaf "name" ];
          on "DeleteField" [ leaf "model"; leaf "name" ];
          on "DeleteModel" [ leaf "name" ];
          on "DeleteRelation" [ leaf "name" ];
          on "UpdateEnum" [ leaf "name"; leaf "newName"; leaf "values" ];
          on "UpdateField"
            [ leaf "model"; leaf "name"; leaf "newName"; leaf "typeName";
              leaf "isRequired"; leaf "isList";
              aliased "isUnique" "unique";
              leaf "relation"; leaf "default"; leaf "enum" ];
          on "UpdateModel" [ leaf "name"; aliased "um_newName" "newName" ] ];
      leaf "hasBeenApplied" ].

(** The inline fragments of [MIGRATION_FRAGMENT]: a migration-step kind
    and the selection set taken on it. *)
Definition stepFragments : list (string * list GraphQL.Selection) :=
  flat_map GraphQL.inlineFragments (GraphQL.selections MigrationFragment).

(** ** The server's GraphQL types for migration steps *)

Module Sangria.

Inductive OutputType : Type :=
| StringType
| BooleanType
| ListType (ofType : OutputType)
| OptionType (ofType : OutputType).

Record Field : Type := mkField { fieldName : string; fieldType : OutputType }.

Record InterfaceType : Type := mkInterfaceType {
  interfaceName : string;
  interfaceDescription : string;
  interfaceFields : list Field
}.

Record ObjectType : Type := mkObjectType {
  objectName : string;
  objectDescription : string;
  interfaces : list InterfaceType;
  ownFields : list Field
}.

Inductive NamedType : Type :=
| Interface (i : InterfaceType)
| Object (o : ObjectType).

Definition typeName (t : NamedType) : string :=
  match t with
  | Interface i => interfaceName i
  | Object o => objectName o
  end.

(** The fields an object type answers: its own and those of the
    interfaces it implements. *)
Definition declaredFields (o : ObjectType) : list string :=
  map fieldName (ownFields o ++ flat_map interfaceFields (interfaces o)).

End Sangria.

Module MigrationStepType.
Import Sangria.

Definition Type_ : InterfaceType :=
  mkInterfaceType "MigrationStep" "This is a migration step."
    [ mkField "type" StringType ].

(** [fieldsHelper]: [simpleName] is [ct.runtimeClass.getSimpleName],
    the name of the step class the helper is instantiated at. *)
Definition fieldsHelper (simpleName : string) (fields : list Field) : ObjectType :=
  mkObjectType simpleName EmptyString [Type_] fields.

Definition CreateModelType : ObjectType :=
  fieldsHelper "CreateModel" [ mkField "name" StringType ].

Definition DeleteModelType : ObjectType :=
  fieldsHelper "DeleteModel" [ mkField "name" StringType ].

Definition UpdateModelType : ObjectType :=
  fieldsHelper "UpdateModel"
    [ mkField "name" StringType;
      mkField "newName" StringType ].

Definition CreateEnumType : ObjectType :=
  fieldsHelper "CreateEnum"
    [ mkField "name" StringType;
      mkField "values" (ListType StringType) ].

Definition DeleteEnumType : ObjectType :=
  fieldsHelper "DeleteEnum" [ mkField "name" StringType ].

Definition UpdateEnumType : ObjectType :=
  fieldsHelper "UpdateEnum"
    [ mkField "name" StringType;
      mkField "newName" (OptionType StringType);
      mkField "values" (OptionType (ListType StringType)) ].

Definition CreateFieldType : ObjectType :=
  fieldsHelper "CreateField"
    [ mkField "model" StringType;
      mkField "name" StringType;
      mkField "typeName" StringType;
      mkField "isRequired" BooleanType;
      mkField "isList" BooleanType;
      mkField "isUnique" BooleanType;
      mkField "relation" (OptionType StringType);
      mkField "defaultValue" (OptionType StringType);
      mkField "enum" (OptionType StringType) ].

Definition DeleteFieldType : ObjectType :=
  fieldsHelper "DeleteField"
    [ mkField "model" StringType;
      mkField "name" StringType ].

Definition UpdateFieldType : ObjectType :=
  fieldsHelper "UpdateField"
    [ mkField "model" StringType;
      mkField "name" StringType;
      mkField "newName" (OptionType StringType);
      mkField "typeName" (OptionType StringType);
      mkField "isRequired" (OptionType BooleanType);
      mkField "isList" (OptionType BooleanType);
      mkField "isUnique" (OptionType BooleanType);
      mkField "relation" (OptionType (OptionType StringType));
      mkField "defaultValue" (OptionType (OptionType StringType));
      mkField "enum" (OptionType (OptionType StringType)) ].

Definition allTypes : list NamedType :=
  [ Interface Type_;
    Object CreateModelType;
    Object DeleteModelType;
    Object UpdateModelType;
    Object CreateEnumType;
    Object DeleteEnumType;
    Object UpdateEnumType;
    Object CreateFieldType;
    Object UpdateFieldType;
    Object DeleteFieldType ].

(** The object type of [allTypes] that carries a given name. *)
Definition objectTypeNamed (name : string) : option ObjectType :=
  match find (fun t => match t with
                       | Object o => (objectName o =? name)%string
                       | Interface _ => false
                       end) allTypes with
  | Some (Object o) => Some o
  | _ => None
  end.

End MigrationStepType.

(** ** Scenarios

    Concrete environments and networks on which the properties below are
    evaluated. *)

Definition local_cluster : Cluster.t :=
  Cluster.mk "local" "local-token" "http://localhost:60000/cluster".

Definition shared_cluster : Cluster.t :=
  Cluster.mk "shared-eu-west-1" "eu-token" "https://eu1.graph.cool/cluster".

Definition demo_env : Environment.t :=
  Environment.mk local_cluster [local_cluster; shared_cluster].

(** [chalk] with colours switched off. *)
Definition plain (text : string) : string := text.

Definition demo_projects : ListProjectsPayload :=
  mkListProjectsPayload [Project.mk "blog" "dev"; Project.mk "blog" "prod"].

(** A network whose every request fails with the same error. *)
Definition always_failing {T : Type} (e : JsError) : nat -> NetOutcome T :=
  fun _ => NetErr e.

(** The session has expired for the first request only. *)
Definition expired_once : nat -> NetOutcome ListProjectsPayload :=
  fun n => match n with
           | O => NetErr (Error "No valid session: please log in")
           | S _ => NetOk demo_projects
           end.

Definition connection_refused : JsError :=
  Error "request to http://localhost:60000/cluster failed, reason: connect ECONNREFUSED 127.0.0.1:60000".

Definition unknown_service : JsError :=
  {| message := "No service with id blog@dev: {response ...}";
     response := Some ["No service with id blog@dev."] |}.

Definition gateway_timeout : JsError := Error "GraphQL Error (Code: 504)".

(** Permanent auth tokens of a project, as the service lists them. *)
Definition demo_pats : Connection PAT.t :=
  mkConnection [ mkEdge (PAT.mk "cj1" "ci" "eyJ.ci");
                 mkEdge (PAT.mk "cj2" "laptop" "eyJ.laptop") ].

(** The project lives in the shared cluster; the local cluster is down. *)
Definition only_shared (n : nat) (cluster : Cluster.t) : NetOutcome ClusterProjectPayload :=
  if (Cluster.name cluster =? "local")%string then NetErr connection_refused
  else NetOk (mkClusterProjectPayload (Some (Project.mk "blog" "dev"))).

Definition demo_functions : Connection FunctionInfo.t :=
  mkConnection
    [ mkEdge (FunctionInfo.mk "sendMail" "f1" "AUTH0" (FunctionInfo.mkStats 3 0) "ServerSideSubscriptionFunction");
      mkEdge (FunctionInfo.mk "Resize" "f2" "WEBHOOK" (FunctionInfo.mkStats 10 1) "RequestPipelineMutationFunction");
      mkEdge (FunctionInfo.mk "resize" "f3" "WEBHOOK" (FunctionInfo.mkStats 0 0) "RequestPipelineMutationFunction") ].

(** A stand-in for [JSON.parse] that reads the two boolean literals. *)
Definition parse_boolean (text : string) : option bool :=
  if (text =? "true")%string then Some true
  else if (text =? "false")%string then Some false
  else None.

(** Endpoints as a cluster builds them. *)
Definition endpoint_under (path : string) (cluster : Cluster.t) (service stage : string) : string :=
  (Cluster.deployEndpoint cluster ++ "/" ++ service ++ "/" ++ stage ++ path)%string.

(** A migration service that answers every status query, the n-th one
    with [st n]. *)
Definition answering (st : nat -> MigrationStatus.t) : nat -> NetOutcome MigrationStatusPayload :=
  fun n => NetOk (mkMigrationStatusPayload (st n)).

(** A migration that is applied at revision 3 by the third status query. *)
Definition applied_at_third (n : nat) : MigrationStatus.t :=
  match n with
  | 0 => MigrationStatus.mk 2 true
  | 1 => MigrationStatus.mk 3 false
  | _ => MigrationStatus.mk 3 true
  end.

(** A migration that stays pending at revision 2. *)
Definition never_applied (n : nat) : MigrationStatus.t := MigrationStatus.mk 2 false.

(** A local cluster that refuses two connections while it boots. *)
Definition booting : nat -> NetOutcome unit :=
  fun n => match n with
           | 0 | 1 => NetErr connection_refused
           | _ => NetOk tt
           end.

(** An error that matches the first two tests of the wrapper at once and
    carries no response. *)
Definition bare_service_error : JsError :=
  Error "No valid session: No service with id blog@dev".

(** What the service says it deleted. *)
Definition demo_deleted : JsObject.t DeleteResult :=
  [ ("cj1", mkDeleteResult "cj1"); ("cj2", mkDeleteResult "cj2") ].

Definition demo_log (id text : string) : FunctionLog.t :=
  FunctionLog.mk id "req" 12 "SUCCESS" "2017-11-30T10:00:00.000Z" text.

(** Two functions: the first with two log entries, the second with one. *)
Definition demo_all_logs : list (Edge AllFunctionLogs.FunctionNode) :=
  [ mkEdge (AllFunctionLogs.mkFunctionNode
              (mkConnection [ mkEdge (demo_log "l1" "sent"); mkEdge (demo_log "l2" "sent") ]));
    mkEdge (AllFunctionLogs.mkFunctionNode
              (mkConnection [ mkEdge (demo_log "l3" "resized") ])) ].

(** ** Traces *)

(** [k] rounds of "request, then wait [ms] milliseconds". *)
Fixpoint polling (endpoint : string) (ms : Z) (k : nat) : list Event :=
  match k with
  | O => []
  | S k' => EvRequest endpoint :: EvSleep ms :: polling endpoint ms k'
  end.

(** The timers of a trace, in order. *)
Fixpoint timers (trace : list Event) : list Z :=
  match trace with
  | [] => []
  | EvSleep ms :: rest => ms :: timers rest
  | _ :: rest => timers rest
  end.

(** The hints given through [out.error], in order. *)
Fixpoint hints (trace : list Event) : list string :=
  match trace with
  | [] => []
  | EvOutError text :: rest => text :: hints rest
  | _ :: rest => hints rest
  end.

(** ** Vocabulary of the properties *)

(** A cluster reports the project when its query resolves with a project;
    a query that throws, or resolves with [null], does not. *)
Definition reports (outcome : NetOutcome ClusterProjectPayload) : bool :=
  match outcome with
  | NetOk data =>
      match payload_project data with
      | Some _ => true
      | None => false
      end
  | NetErr _ => false
  end.

(** The clusters that report the project, in the order of the
    configuration, when the first of them is asked by request number
    [first] and each following one by the next number. *)
Fixpoint reporting (net : nat -> Cluster.t -> NetOutcome ClusterProjectPayload)
    (first : nat) (clusters : list Cluster.t) : list Cluster.t :=
  match clusters with
  | [] => []
  | cluster :: rest =>
      if reports (net first cluster) then cluster :: reporting net (S first) rest
      else reporting net (S first) rest
  end.

(** Strings made of white space only. *)
Fixpoint allWhiteSpace (s : string) : bool :=
  match s with
  | EmptyString => true
  | String c rest => JsString.isWhiteSpace c && allWhiteSpace rest
  end.

(** Two code units that spell the same letter A-Z, in either case, or are
    equal; and two strings that agree unit by unit in that sense. *)
Definition isUpperAZ (c : ascii) : bool :=
  ((65 <=? nat_of_ascii c) && (nat_of_ascii c <=? 90))%nat.

Definition sameLetter (c d : ascii) : bool :=
  Ascii.eqb c d
  || isUpperAZ c && Ascii.eqb d (ascii_of_nat (nat_of_ascii c + 32))
  || isUpperAZ d && Ascii.eqb c (ascii_of_nat (nat_of_ascii d + 32)).

Fixpoint sameModuloCase (s t : string) : bool :=
  match s, t with
  | EmptyString, EmptyString => true
  | String c s', String d t' => sameLetter c d && sameModuloCase s' t'
  | _, _ => false
  end.

(** The test [getFunction] hands to [find]. *)
Definition nameMatches (functionName : string) (fn : FunctionInfo.t) : bool :=
  (normalizeName (FunctionInfo.name fn) =? normalizeName functionName)%string.

(** The migration-step kinds [MIGRATION_FRAGMENT] names, and the fields it
    selects on one of them. *)
Definition stepKinds : list string := map fst stepFragments.

Definition selectedOn (kind : string) : list string :=
  flat_map (fun fragment => if (fst fragment =? kind)%string
                            then GraphQL.fieldNames (snd fragment)
                            else [])
           stepFragments.

(** An error that makes the wrapper ask again, and one that makes it
    give the local-cluster hint: the tests of the [catch] block, in its
    order. *)
Definition sessionExpired (e : JsError) : bool :=
  negb (JsString.includes (message e) "No service with id")
  && JsString.startsWith (message e) "No valid session".

Definition localRefused (e : JsError) : bool :=
  negb (JsString.includes (message e) "No service with id")
  && negb (JsString.startsWith (message e) "No valid session")
  && (JsString.includes (message e) "ECONNREFUSED"
      && (JsString.includes (message e) "localhost"
          || JsString.includes (message e) "127.0.0.1")).

(** The text of the local-cluster hint. *)
Definition localHint (chalk_bold_green : string -> string) : string :=
  ("Could not connect to local cluster. Please use "
   ++ chalk_bold_green "graphcool local up"
   ++ " to start your local Graphcool cluster.")%string.

(** A service whose session has expired for every request before number
    [ready], and which answers [data] from then on. *)
Definition expiredUntil {T : Type} (ready : nat) (data : T) : nat -> NetOutcome T :=
  fun n => if (n <? ready)%nat then NetErr (Error "No valid session") else NetOk data.

(** The requests of a trace, counted. *)
Fixpoint requests (trace : list Event) : nat :=
  match trace with
  | [] => 0
  | EvRequest _ :: rest => S (requests rest)
  | _ :: rest => requests rest
  end.

(** The world a computation ended in, when it has ended. *)
Definition final {A : Type} (r : Result A) : option World :=
  match r with
  | Returned _ w => Some w
  | Threw _ w => Some w
  | OutOfFuel => None
  end.

(** [k] requests to one endpoint, back to back. *)
Definition backToBack (endpoint : string) (k : nat) (w : World) : World :=
  {| sent := sent w + k; events := events w ++ repeat (EvRequest endpoint) k |}.

(** The declaration [deleteProjects] writes for the variable of index [i],
    and the name of that variable. *)
Definition variableDeclaration (i : nat) : string :=
  ("$projectId" ++ indexToString i ++ ": String!")%string.

Definition variableName (i : nat) : string := ("projectId" ++ indexToString i)%string.

(** The log entries under one function of [getAllFunctionLogs]' answer. *)
Definition logsOf (functionEdge : Edge AllFunctionLogs.FunctionNode) : list FunctionLog.t :=
  map (fun logEdge => node logEdge) (edges (AllFunctionLogs.logs (node functionEdge))).

(** The key under which a selected field comes back: its alias, or its
    name when it has none. *)
Definition responseKey (alias : option string) (name : string) : string :=
  match alias with
  | Some a => a
  | None => name
  end.

Fixpoint outputTypeEqb (a b : Sangria.OutputType) : bool :=
  match a, b with
  | Sangria.StringType, Sangria.StringType => true
  | Sangria.BooleanType, Sangria.BooleanType => true
  | Sangria.ListType a', Sangria.ListType b' => outputTypeEqb a' b'
  | Sangria.OptionType a', Sangria.OptionType b' => outputTypeEqb a' b'
  | _, _ => false
  end.

(** The type an object type gives the field of a name, among its own
    fields and those of its interfaces. *)
Definition fieldTypeOf (o : Sangria.ObjectType) (name : string) : option Sangria.OutputType :=
  option_map Sangria.fieldType
    (find (fun f => (Sangria.fieldName f =? name)%string)
          (Sangria.ownFields o ++ flat_map Sangria.interfaceFields (Sangria.interfaces o))).

(** What an inline fragment makes the server answer: for every field it
    selects that the object type of its kind declares, the response key
    and the declared type. *)
Definition answers (fragment : string * list GraphQL.Selection)
    : list (string * Sangria.OutputType) :=
  match MigrationStepType.objectTypeNamed (fst fragment) with
  | None => []
  | Some o =>
      flat_map (fun selection =>
                  match selection with
                  | GraphQL.Field alias name _ =>
                      match fieldTypeOf o name with
                      | Some type => [(responseKey alias name, type)]
                      | None => []
                      end
                  | GraphQL.InlineFragment _ _ => []
                  end)
               (snd fragment)
  end.

(** Names that are the same when case and surrounding white space are
    ignored, said without [normalizeName]. A capital is one of A-Z or of
    the Latin-1 capitals; two code units agree when they are equal or one
    is the capital whose small letter, 32 further, is the other; two
    strings agree when they do unit by unit; and two names are the same
    when each is such a string between white space. *)
Definition isCapitalUnit (c : ascii) : bool :=
  let n := nat_of_ascii c in
  ((65 <=? n) && (n <=? 90) || (192 <=? n) && (n <=? 222) && negb (n =? 215))%nat.

Definition sameUnitIgnoringCase (c d : ascii) : bool :=
  Ascii.eqb c d
  || isCapitalUnit c && Ascii.eqb d (ascii_of_nat (nat_of_ascii c + 32))
  || isCapitalUnit d && Ascii.eqb c (ascii_of_nat (nat_of_ascii d + 32)).

Fixpoint sameIgnoringCase (s t : string) : bool :=
  match s, t with
  | EmptyString, EmptyString => true
  | String c s', String d t' => sameUnitIgnoringCase c d && sameIgnoringCase s' t'
  | _, _ => false
  end.

Definition sameName (a b : string) : Prop :=
  exists beforeA coreA afterA beforeB coreB afterB,
    a = (beforeA ++ coreA ++ afterA)%string
    /\ b = (beforeB ++ coreB ++ afterB)%string
    /\ allWhiteSpace beforeA = true /\ allWhiteSpace afterA = true
    /\ allWhiteSpace beforeB = true /\ allWhiteSpace afterB = true
    /\ sameIgnoringCase coreA coreB = true.

(** Every code unit of the model. *)
Definition allUnits : list ascii := map ascii_of_nat (seq 0 256).

(** What a run of [waitForMigration] may add to the trace: a request to
    the endpoint of the active cluster, a timer of 500 ms, or a hint. *)
Definition pollingEvent (endpoint : string) (ev : Event) : Prop :=
  match ev with
  | EvRequest target => target = endpoint
  | EvSleep ms => ms = 500%Z
  | EvOutError _ => True
  | EvFetch _ _ _ => False
  end.

(** * Properties *)

(** ** Strings *)

Ltac each_unit c := destruct c as [[] [] [] [] [] [] [] []].

Example includes_examples :
  JsString.includes "connect ECONNREFUSED 127.0.0.1:60000" "ECONNREFUSED" = true
  /\ JsString.includes "connect ECONNREFUSED 127.0.0.1:60000" "localhost" = false
  /\ JsString.includes "abc" EmptyString = true
  /\ JsString.includes "abc" "abcd" = false.
Proof. repeat split. Qed.

Example startsWith_examples :
  JsString.startsWith "No valid session found" "No valid session" = true
  /\ JsString.startsWith "Error: No valid session" "No valid session" = false
  /\ JsString.startsWith "No valid" "No valid session" = false.
Proof. repeat split. Qed.

Example normalizeName_examples :
  normalizeName "  Send Mail " = "send mail"
  /\ normalizeName "RESIZE" = "resize"
  /\ normalizeName "   " = EmptyString.
Proof. repeat split. Qed.

Lemma append_assoc (a b c : string) : ((a ++ b) ++ c = a ++ b ++ c)%string.
Proof. induction a as [|x a IH]; cbn; [|rewrite IH]; reflexivity. Qed.

Lemma append_empty_r (a : string) : (a ++ EmptyString)%string = a.
Proof. induction a as [|x a IH]; cbn; [|rewrite IH]; reflexivity. Qed.

Lemma prefix_append (sub rest : string) : String.prefix sub (sub ++ rest) = true.
Proof.
  induction sub as [|x sub IH]; cbn; [destruct rest; reflexivity|].
  destruct (ascii_dec x x); [exact IH|contradiction].
Qed.

Lemma includes_unfold (s sub : string) :
  JsString.includes s sub
  = if String.prefix sub s then true
    else match s with
         | EmptyString => false
         | String _ rest => JsString.includes rest sub
         end.
Proof. destruct s; reflexivity. Qed.

Lemma includes_here (s sub : string) :
  String.prefix sub s = true -> JsString.includes s sub = true.
Proof. intros H. rewrite includes_unfold, H. reflexivity. Qed.

Lemma includes_later (c : ascii) (s sub : string) :
  JsString.includes s sub = true -> JsString.includes (String c s) sub = true.
Proof.
  intros H. rewrite includes_unfold, H.
  destruct (String.prefix sub (String c s)); reflexivity.
Qed.

Lemma prefix_split (sub : string) :
  forall s, String.prefix sub s = true -> exists after, s = (sub ++ after)%string.
Proof.
  induction sub as [|x sub IH]; intros s H; [exists s; reflexivity|].
  destruct s as [|y s]; [discriminate|]. cbn in H.
  destruct (ascii_dec x y) as [<-|]; [|discriminate].
  destruct (IH s H) as [after ->]. exists after. reflexivity.
Qed.

Lemma includes_split (sub : string) :
  forall s, JsString.includes s sub = true ->
            exists before after, s = (before ++ sub ++ after)%string.
Proof.
  induction s as [|c s IH]; intros H; rewrite includes_unfold in H.
  - destruct (String.prefix sub EmptyString) eqn:Hp; [|discriminate].
    destruct (prefix_split sub _ Hp) as [after ->]. exists EmptyString, after. reflexivity.
  - destruct (String.prefix sub (String c s)) eqn:Hp.
    + destruct (prefix_split sub _ Hp) as [after ->]. exists EmptyString, after. reflexivity.
    + destruct (IH H) as (before & after & ->). exists (String c before), after. reflexivity.
Qed.

Lemma includes_infix (before sub after : string) :
  JsString.includes (before ++ sub ++ after) sub = true.
Proof.
  induction before as [|c before IH]; cbn [append].
  - apply includes_here, prefix_append.
  - apply includes_later, IH.
Qed.

Lemma concat_infix (sep x : string) (l : list string) :
  In x l -> exists before after, String.concat sep l = (before ++ x ++ after)%string.
Proof.
  induction l as [|y l IH]; [contradiction|]. intros [->|Hin].
  - exists EmptyString. destruct l as [|z l].
    + exists EmptyString. cbn. rewrite append_empty_r. reflexivity.
    + exists (sep ++ String.concat sep (z :: l))%string. reflexivity.
  - destruct (IH Hin) as (before & after & Heq).
    destruct l as [|z l]; [contradiction|].
    exists (y ++ sep ++ before)%string, after.
    change (String.concat sep (y :: z :: l))
      with (y ++ sep ++ String.concat sep (z :: l))%string.
    rewrite Heq, !append_assoc. reflexivity.
Qed.

Lemma isWhiteSpace_toLowerCaseUnit (c : ascii) :
  JsString.isWhiteSpace (JsString.toLowerCaseUnit c) = JsString.isWhiteSpace c.
Proof. each_unit c; reflexivity. Qed.

Lemma toLowerCaseUnit_upper (c : ascii) :
  isUpperAZ c = true ->
  JsString.toLowerCaseUnit (ascii_of_nat (nat_of_ascii c + 32)) = JsString.toLowerCaseUnit c.
Proof. each_unit c; intros H; solve [reflexivity | discriminate H]. Qed.

Lemma toLowerCaseUnit_sameLetter (c d : ascii) :
  sameLetter c d = true -> JsString.toLowerCaseUnit c = JsString.toLowerCaseUnit d.
Proof.
  unfold sameLetter. intros H.
  apply orb_true_iff in H as [H|H]; [apply orb_true_iff in H as [H|H]|].
  - apply Ascii.eqb_eq in H. congruence.
  - apply andb_true_iff in H as [Hup H]. apply Ascii.eqb_eq in H. subst d.
    symmetry. apply toLowerCaseUnit_upper, Hup.
  - apply andb_true_iff in H as [Hup H]. apply Ascii.eqb_eq in H. subst c.
    apply toLowerCaseUnit_upper, Hup.
Qed.

Lemma toLowerCase_sameModuloCase (s : string) :
  forall t, sameModuloCase s t = true -> JsString.toLowerCase s = JsString.toLowerCase t.
Proof.
  induction s as [|c s IH]; intros [|d t] H; try discriminate; [reflexivity|].
  cbn in H. apply andb_true_iff in H as [Hcd Hst]. cbn.
  rewrite (toLowerCaseUnit_sameLetter c d Hcd), (IH t Hst). reflexivity.
Qed.

Lemma toLowerCase_append (a b : string) :
  JsString.toLowerCase (a ++ b) = (JsString.toLowerCase a ++ JsString.toLowerCase b)%string.
Proof. induction a as [|x a IH]; cbn; [|rewrite IH]; reflexivity. Qed.

Lemma allWhiteSpace_toLowerCase (s : string) :
  allWhiteSpace (JsString.toLowerCase s) = allWhiteSpace s.
Proof.
  induction s as [|c s IH]; cbn; [reflexivity|].
  rewrite isWhiteSpace_toLowerCaseUnit, IH. reflexivity.
Qed.

Lemma trimStart_padding (pad s : string) :
  allWhiteSpace pad = true -> JsString.trimStart (pad ++ s) = JsString.trimStart s.
Proof.
  induction pad as [|c pad IH]; cbn; [reflexivity|]. intros H.
  apply andb_true_iff in H as [Hc Hpad]. rewrite Hc. exact (IH Hpad).
Qed.

Lemma trimEnd_all_padding (pad : string) :
  allWhiteSpace pad = true -> JsString.trimEnd pad = EmptyString.
Proof.
  induction pad as [|c pad IH]; cbn; [reflexivity|]. intros H.
  apply andb_true_iff in H as [Hc Hpad]. rewrite (IH Hpad), Hc. reflexivity.
Qed.

Lemma trimEnd_padding (s pad : string) :
  allWhiteSpace pad = true -> JsString.trimEnd (s ++ pad) = JsString.trimEnd s.
Proof.
  intros Hpad. induction s as [|c s IH]; cbn.
  - apply trimEnd_all_padding, Hpad.
  - rewrite IH. reflexivity.
Qed.

Lemma trim_padding (before s after : string) :
  allWhiteSpace before = true -> allWhiteSpace after = true ->
  JsString.trim (before ++ s ++ after) = JsString.trim s.
Proof.
  intros Hbefore Hafter. unfold JsString.trim.
  rewrite (trimStart_padding before _ Hbefore).
  induction s as [|c s IH]; cbn [append JsString.trimStart].
  - rewrite <- (append_empty_r after), (trimStart_padding after _ Hafter). reflexivity.
  - destruct (JsString.isWhiteSpace c); [exact IH|].
    change (String c (s ++ after)) with (String c s ++ after)%string.
    apply trimEnd_padding, Hafter.
Qed.

Lemma find_first {A : Type} (test : A -> bool) (l : list A) :
  match find test l with
  | Some x =>
      exists before after,
        l = before ++ x :: after /\ test x = true
        /\ Forall (fun y => test y = false) before
  | None => Forall (fun y => test y = false) l
  end.
Proof.
  induction l as [|y l IH]; cbn; [constructor|].
  destruct (test y) eqn:Hy.
  - exists [], l. repeat split; [exact Hy|constructor].
  - destruct (find test l) as [x|].
    + destruct IH as (before & after & -> & Hx & Hnone).
      exists (y :: before), after. repeat split; [exact Hx|constructor; assumption].
    + constructor; assumption.
Qed.

Lemma toLowerCaseUnit_idempotent (c : ascii) :
  JsString.toLowerCaseUnit (JsString.toLowerCaseUnit c) = JsString.toLowerCaseUnit c.
Proof. each_unit c; reflexivity. Qed.

Lemma toLowerCase_idempotent (s : string) :
  JsString.toLowerCase (JsString.toLowerCase s) = JsString.toLowerCase s.
Proof.
  induction s as [|c s IH]; cbn; [reflexivity|].
  rewrite toLowerCaseUnit_idempotent, IH. reflexivity.
Qed.

Lemma trimStart_toLowerCase (s : string) :
  JsString.trimStart (JsString.toLowerCase s) = JsString.toLowerCase (JsString.trimStart s).
Proof.
  induction s as [|c s IH]; cbn; [reflexivity|].
  rewrite isWhiteSpace_toLowerCaseUnit.
  destruct (JsString.isWhiteSpace c); [exact IH|reflexivity].
Qed.

Lemma trimEnd_toLowerCase (s : string) :
  JsString.trimEnd (JsString.toLowerCase s) = JsString.toLowerCase (JsString.trimEnd s).
Proof.
  induction s as [|c s IH]; cbn; [reflexivity|].
  rewrite IH, isWhiteSpace_toLowerCaseUnit.
  destruct (JsString.trimEnd s); cbn; [|reflexivity].
  destruct (JsString.isWhiteSpace c); reflexivity.
Qed.

Lemma trimEnd_idempotent (s : string) :
  JsString.trimEnd (JsString.trimEnd s) = JsString.trimEnd s.
Proof.
  induction s as [|c s IH]; cbn; [reflexivity|].
  destruct (JsString.trimEnd s) as [|d kept] eqn:Hkept.
  - destruct (JsString.isWhiteSpace c) eqn:Hc; cbn; [reflexivity|].
    rewrite Hc. reflexivity.
  - cbn [JsString.trimEnd] in IH |- *. rewrite IH. reflexivity.
Qed.

Lemma trimStart_trimEnd_trimStart (s : string) :
  JsString.trimStart (JsString.trimEnd (JsString.trimStart s))
  = JsString.trimEnd (JsString.trimStart s).
Proof.
  induction s as [|c s IH]; cbn [JsString.trimStart]; [reflexivity|].
  destruct (JsString.isWhiteSpace c) eqn:Hc; [exact IH|].
  cbn [JsString.trimEnd].
  destruct (JsString.trimEnd s); rewrite ?Hc; cbn [JsString.trimStart]; rewrite Hc;
    reflexivity.
Qed.

Lemma trim_idempotent (s : string) : JsString.trim (JsString.trim s) = JsString.trim s.
Proof.
  unfold JsString.trim. rewrite trimStart_trimEnd_trimStart. apply trimEnd_idempotent.
Qed.

Lemma normalizeName_idempotent (name : string) :
  normalizeName (normalizeName name) = normalizeName name.
Proof.
  unfold normalizeName, JsString.trim.
  rewrite <- trimEnd_toLowerCase, <- trimStart_toLowerCase, toLowerCase_idempotent.
  exact (trim_idempotent (JsString.toLowerCase name)).
Qed.

Lemma trimStart_split (s : string) :
  exists before, s = (before ++ JsString.trimStart s)%string /\ allWhiteSpace before = true.
Proof.
  induction s as [|c s IH]; [exists EmptyString; split; reflexivity|].
  cbn [JsString.trimStart]. destruct (JsString.isWhiteSpace c) eqn:Hc.
  - destruct IH as (before & Heq & Hws). exists (String c before). split.
    + cbn. rewrite <- Heq. reflexivity.
    + cbn. rewrite Hc, Hws. reflexivity.
  - exists EmptyString. split; reflexivity.
Qed.

Lemma trimEnd_split (s : string) :
  exists after, s = (JsString.trimEnd s ++ after)%string /\ allWhiteSpace after = true.
Proof.
  induction s as [|c s IH]; [exists EmptyString; split; reflexivity|].
  destruct IH as (after & Heq & Hws). cbn [JsString.trimEnd].
  destruct (JsString.trimEnd s) as [|d kept] eqn:Hkept.
  - cbn in Heq. destruct (JsString.isWhiteSpace c) eqn:Hc.
    + exists (String c s). split; [reflexivity|]. cbn. rewrite Hc, Heq. exact Hws.
    + exists s. split; [reflexivity|]. rewrite Heq. exact Hws.
  - exists after. split; [|exact Hws]. cbn. rewrite Heq at 1. reflexivity.
Qed.

Lemma trim_split (s : string) :
  exists before after,
    s = (before ++ JsString.trim s ++ after)%string
    /\ allWhiteSpace before = true /\ allWhiteSpace after = true.
Proof.
  destruct (trimStart_split s) as (before & Hs & Hbefore).
  destruct (trimEnd_split (JsString.trimStart s)) as (after & Ht & Hafter).
  exists before, after. unfold JsString.trim. rewrite <- Ht. auto.
Qed.

Lemma normalizeName_trim_first (name : string) :
  normalizeName name = JsString.toLowerCase (JsString.trim name).
Proof.
  unfold normalizeName, JsString.trim.
  rewrite <- trimEnd_toLowerCase, <- trimStart_toLowerCase. reflexivity.
Qed.

Lemma In_allUnits (c : ascii) : In c allUnits.
Proof.
  unfold allUnits. rewrite <- (ascii_nat_embedding c).
  apply in_map, in_seq. pose proof (nat_ascii_bounded c). lia.
Qed.

Lemma toLowerCaseUnit_eq_iff (c d : ascii) :
  JsString.toLowerCaseUnit c = JsString.toLowerCaseUnit d <-> sameUnitIgnoringCase c d = true.
Proof.
  assert (Hall : forallb (fun c => forallb (fun d =>
             Bool.eqb (Ascii.eqb (JsString.toLowerCaseUnit c) (JsString.toLowerCaseUnit d))
                      (sameUnitIgnoringCase c d)) allUnits) allUnits = true)
    by (vm_compute; reflexivity).
  rewrite forallb_forall in Hall. specialize (Hall c (In_allUnits c)).
  rewrite forallb_forall in Hall. specialize (Hall d (In_allUnits d)).
  apply Bool.eqb_prop in Hall. rewrite <- Hall. symmetry. apply Ascii.eqb_eq.
Qed.

Lemma toLowerCase_eq_iff (s : string) :
  forall t, JsString.toLowerCase s = JsString.toLowerCase t <-> sameIgnoringCase s t = true.
Proof.
  induction s as [|c s IH]; intros [|d t]; cbn; try (split; [discriminate|discriminate]).
  - split; reflexivity.
  - rewrite andb_true_iff, <- toLowerCaseUnit_eq_iff, <- IH. split.
    + intros H. injection H as Hc Hs. split; assumption.
    + intros [Hc Hs]. rewrite Hc, Hs. reflexivity.
Qed.

Lemma normalizeName_sameName (a b : string) :
  normalizeName a = normalizeName b <-> sameName a b.
Proof.
  split.
  - intros H. rewrite !normalizeName_trim_first in H. apply toLowerCase_eq_iff in H.
    destruct (trim_split a) as (beforeA & afterA & Ha & HbA & HaA).
    destruct (trim_split b) as (beforeB & afterB & Hb & HbB & HaB).
    exists beforeA, (JsString.trim a), afterA, beforeB, (JsString.trim b), afterB.
    repeat split; assumption.
  - intros (beforeA & coreA & afterA & beforeB & coreB & afterB
            & -> & -> & HbA & HaA & HbB & HaB & Hcore).
    apply toLowerCase_eq_iff in Hcore. unfold normalizeName.
    rewrite !toLowerCase_append.
    rewrite !trim_padding by (rewrite allWhiteSpace_toLowerCase; assumption).
    rewrite Hcore. reflexivity.
Qed.

Section ClientProperties.

Variable env : Environment.t.
Variable chalk_bold_green : string -> string.

Let activeEndpoint : string := Cluster.deployEndpoint (Environment.activeCluster env).

(** ** The wrapper around the GraphQL client *)

Lemma client_request_ok {T : Type} (net : nat -> NetOutcome T) fuel w data :
  net (sent w) = NetOk data ->
  client_request env chalk_bold_green net (S fuel) w
  = Returned (Some data) (issued (EvRequest activeEndpoint) w).
Proof. intros Hnet. cbn. rewrite Hnet. reflexivity. Qed.

(** C2. An exception of the underlying request whose message matches none
    of the three patterns (contains "No service with id"; starts with
    "No valid session"; contains "ECONNREFUSED" together with "localhost"
    or "127.0.0.1") is re-raised by the wrapper, the very same error
    object, after the one request that produced it. *)
Theorem client_rethrows_unmatched {T : Type} (net : nat -> NetOutcome T) fuel w e :
  net (sent w) = NetErr e ->
  JsString.includes (message e) "No service with id" = false ->
  JsString.startsWith (message e) "No valid session" = false ->
  JsString.includes (message e) "ECONNREFUSED"
    && (JsString.includes (message e) "localhost"
        || JsString.includes (message e) "127.0.0.1") = false ->
  client_request env chalk_bold_green net (S fuel) w
  = Threw (Raised e) (issued (EvRequest activeEndpoint) w).
Proof.
  intros Hnet Hservice Hsession Hlocal. cbn.
  rewrite Hnet, Hservice, Hsession, Hlocal. reflexivity.
Qed.

(** C3, as amended. Of the three patterns only two select a hint. When the
    message contains "No service with id" and the error carries
    [response.errors[0].message], that message is reported through
    [out.error] with the account hint; when the message matches neither
    that pattern nor "No valid session" and contains "ECONNREFUSED" with
    "localhost" or "127.0.0.1", the local-cluster hint is reported. In both
    cases the wrapper resolves with [undefined] and nothing is re-raised.
    When the message starts with "No valid session" (and does not contain
    "No service with id") no hint is produced: the request is sent again
    and the wrapper's outcome is the outcome of that retry. *)
Theorem client_hint_or_retry {T : Type} (net : nat -> NetOutcome T) fuel w e :
  net (sent w) = NetErr e ->
  let w1 := issued (EvRequest activeEndpoint) w in
  (forall m rest,
      JsString.includes (message e) "No service with id" = true ->
      response e = Some (m :: rest) ->
      client_request env chalk_bold_green net (S fuel) w
      = Returned None
          (out_error (m ++ " Please check if you are logged in to the right account.")%string w1))
  /\ (JsString.includes (message e) "No service with id" = false ->
      JsString.startsWith (message e) "No valid session" = false ->
      JsString.includes (message e) "ECONNREFUSED"
        && (JsString.includes (message e) "localhost"
            || JsString.includes (message e) "127.0.0.1") = true ->
      client_request env chalk_bold_green net (S fuel) w
      = Returned None
          (out_error ("Could not connect to local cluster. Please use "
                      ++ chalk_bold_green "graphcool local up"
                      ++ " to start your local Graphcool cluster.")%string w1))
  /\ (JsString.includes (message e) "No service with id" = false ->
      JsString.startsWith (message e) "No valid session" = true ->
      client_request env chalk_bold_green net (S fuel) w
      = client_request env chalk_bold_green net fuel w1).
Proof.
  intros Hnet w1. repeat split.
  - intros m rest Hservice Hresp. cbn. rewrite Hnet, Hservice, Hresp. reflexivity.
  - intros Hservice Hsession Hlocal. cbn.
    rewrite Hnet, Hservice, Hsession, Hlocal. reflexivity.
  - intros Hservice Hsession. cbn. rewrite Hnet, Hservice, Hsession. reflexivity.
Qed.

(** ** Waiting for a migration *)

Lemma waitForMigration_poll (net : nat -> NetOutcome MigrationStatusPayload)
    revision fuel w data :
  net (sent w) = NetOk data ->
  waitForMigration env chalk_bold_green net revision (S fuel) w
  = if migration_done revision (migrationStatus data)
    then Returned tt (issued (EvRequest activeEndpoint) w)
    else waitForMigration env chalk_bold_green net revision fuel
           (sleep 500 (issued (EvRequest activeEndpoint) w)).
Proof.
  intros Hnet. cbn [waitForMigration]. unfold bind.
  rewrite (client_request_ok net fuel w data Hnet). cbn [destructure].
  destruct (migration_done revision (migrationStatus data)); reflexivity.
Qed.

Lemma timers_app (t1 t2 : list Event) : timers (t1 ++ t2) = timers t1 ++ timers t2.
Proof.
  induction t1 as [|ev t1 IH]; [reflexivity|].
  destruct ev; cbn; rewrite IH; reflexivity.
Qed.

Lemma timers_polling endpoint ms k : timers (polling endpoint ms k) = repeat ms k.
Proof. induction k as [|k IH]; cbn; [|rewrite IH]; reflexivity. Qed.

(** C1. Against a service that answers every status query, if the query
    number [k] (counting from 0) is the first whose answer has
    [revision >= ] the requested revision and [hasBeenApplied] set, then
    [waitForMigration] returns exactly at that query: it is still running
    as long as it has made no more than [k] polls, and with the next one it
    returns, having sent [k + 1] requests; its trace is [k] rounds of
    "request, wait 500 ms" followed by the last request, so the waits
    between consecutive polls are [k] timers of 500 ms each. *)
Theorem waitForMigration_returns_at_first (st : nat -> MigrationStatus.t) revision k :
  forall w,
    (forall i, i < k -> migration_done revision (st (sent w + i)) = false) ->
    migration_done revision (st (sent w + k)) = true ->
    (forall fuel,
        fuel <= k ->
        waitForMigration env chalk_bold_green (answering st) revision fuel w = OutOfFuel)
    /\ (forall fuel,
          k < fuel ->
          exists w',
            waitForMigration env chalk_bold_green (answering st) revision fuel w
            = Returned tt w'
            /\ sent w' = sent w + S k
            /\ events w'
               = events w ++ polling activeEndpoint 500 k ++ [EvRequest activeEndpoint]
            /\ timers (events w') = timers (events w) ++ repeat 500%Z k).
Proof.
  induction k as [|k IH]; intros w Hbefore Hdone.
  - split; intros fuel Hfuel.
    + replace fuel with 0 by lia. reflexivity.
    + destruct fuel as [|fuel]; [lia|].
      rewrite (waitForMigration_poll (answering st) revision fuel w _ eq_refl).
      cbn [migrationStatus]. rewrite Nat.add_0_r in Hdone. rewrite Hdone.
      eexists; repeat split; cbn; [lia|].
      rewrite timers_app. cbn. rewrite !app_nil_r. reflexivity.
  - assert (Hnow : migration_done revision (st (sent w)) = false)
      by (rewrite <- (Nat.add_0_r (sent w)); apply Hbefore; lia).
    set (w1 := sleep 500 (issued (EvRequest activeEndpoint) w)).
    destruct (IH w1) as [Hrunning Hreturns].
    { intros i Hi. replace (sent w1 + i) with (sent w + S i) by (cbn; lia).
      apply Hbefore. lia. }
    { replace (sent w1 + k) with (sent w + S k) by (cbn; lia). exact Hdone. }
    split; intros [|fuel] Hfuel; try reflexivity; try lia;
      rewrite (waitForMigration_poll (answering st) revision fuel w _ eq_refl);
      cbn [migrationStatus]; rewrite Hnow; fold w1.
    + apply Hrunning. lia.
    + destruct (Hreturns fuel) as (w' & Hrun & Hsent & Hevents & Htimers); [lia|].
      exists w'. rewrite Hrun, Hsent, Htimers, Hevents.
      repeat split.
      * cbn. lia.
      * cbn. rewrite <- !app_assoc. reflexivity.
      * cbn. rewrite !timers_app. cbn. rewrite <- !app_assoc. reflexivity.
Qed.

Lemma waitForMigration_returns_within (st : nat -> MigrationStatus.t) revision n :
  forall fuel w,
    migration_done revision (st (sent w + n)) = true ->
    n < fuel ->
    exists w', waitForMigration env chalk_bold_green (answering st) revision fuel w = Returned tt w'.
Proof.
  induction n as [|n IH]; intros fuel w Hdone Hfuel;
    (destruct fuel as [|fuel]; [lia|]);
    rewrite (waitForMigration_poll (answering st) revision fuel w _ eq_refl);
    cbn [migrationStatus];
    destruct (migration_done revision (st (sent w))) eqn:Hnow; eauto.
  - rewrite Nat.add_0_r in Hdone. congruence.
  - apply IH; [|lia].
    replace (sent (sleep 500 (issued (EvRequest activeEndpoint) w)) + n)
      with (sent w + S n) by (cbn; lia).
    exact Hdone.
Qed.

Lemma waitForMigration_pending_forever (st : nat -> MigrationStatus.t) revision :
  forall fuel w,
    (forall n, migration_done revision (st (sent w + n)) = false) ->
    waitForMigration env chalk_bold_green (answering st) revision fuel w = OutOfFuel.
Proof.
  induction fuel as [|fuel IH]; intros w Hpending; [reflexivity|].
  rewrite (waitForMigration_poll (answering st) revision fuel w _ eq_refl).
  cbn [migrationStatus].
  assert (Hnow : migration_done revision (st (sent w)) = false)
    by (rewrite <- (Nat.add_0_r (sent w)); apply Hpending).
  rewrite Hnow.
  apply IH. intros n.
  replace (sent (sleep 500 (issued (EvRequest activeEndpoint) w)) + n)
    with (sent w + S n) by (cbn; lia).
  apply Hpending.
Qed.

Lemma waitForMigration_stops_on_done (st : nat -> MigrationStatus.t) revision :
  forall fuel w,
    waitForMigration env chalk_bold_green (answering st) revision fuel w <> OutOfFuel ->
    exists n, migration_done revision (st (sent w + n)) = true.
Proof.
  induction fuel as [|fuel IH]; intros w Hstops; [contradiction|].
  rewrite (waitForMigration_poll (answering st) revision fuel w _ eq_refl) in Hstops.
  cbn [migrationStatus] in Hstops.
  destruct (migration_done revision (st (sent w))) eqn:Hnow.
  - exists 0. rewrite Nat.add_0_r. exact Hnow.
  - destruct (IH _ Hstops) as [n Hn]. exists (S n).
    replace (sent w + S n)
      with (sent (sleep 500 (issued (EvRequest activeEndpoint) w)) + n) by (cbn; lia).
    exact Hn.
Qed.

(** C5. [waitForMigration] has no timeout and no bound on its
    iterations. Against a service that answers every status query, if no
    answer ever has [revision >= ] the requested revision with
    [hasBeenApplied] set, the loop is still running whatever budget of
    iterations it is given; and it stops for some budget exactly when some
    answer satisfies the test, in which case it returns. *)
Theorem waitForMigration_unbounded (st : nat -> MigrationStatus.t) revision w :
  ((forall n, migration_done revision (st (sent w + n)) = false) ->
   forall fuel,
     waitForMigration env chalk_bold_green (answering st) revision fuel w = OutOfFuel)
  /\ ((exists fuel,
         waitForMigration env chalk_bold_green (answering st) revision fuel w <> OutOfFuel)
      <-> (exists n, migration_done revision (st (sent w + n)) = true))
  /\ ((exists n, migration_done revision (st (sent w + n)) = true) ->
      exists fuel w',
        waitForMigration env chalk_bold_green (answering st) revision fuel w
        = Returned tt w').
Proof.
  split; [|split; [split|]].
  - intros Hpending fuel. apply waitForMigration_pending_forever. exact Hpending.
  - intros [fuel Hstops]. exact (waitForMigration_stops_on_done st revision fuel w Hstops).
  - intros [n Hn]. exists (S n).
    destruct (waitForMigration_returns_within st revision n (S n) w Hn) as [w' Hrun]; [lia|].
    rewrite Hrun. discriminate.
  - intros [n Hn]. exists (S n).
    apply (waitForMigration_returns_within st revision n (S n) w Hn). lia.
Qed.

(** ** The wait loops and exceptions *)

Lemma waitForLocalDocker_never_throws {T : Type} (docker : nat -> NetOutcome T) endpoint :
  forall fuel valid w e w',
    waitForLocalDocker_loop docker endpoint fuel valid w <> Threw e w'.
Proof.
  induction fuel as [|fuel IH]; intros valid w e w';
    destruct valid; cbn; try discriminate.
  apply IH.
Qed.

Lemma waitForLocalDocker_returned {T : Type} (docker : nat -> NetOutcome T) endpoint :
  forall fuel w w',
    waitForLocalDocker docker endpoint fuel w = Returned tt w' ->
    exists k data,
      docker (sent w + k) = NetOk data
      /\ (forall i, i < k -> exists e, docker (sent w + i) = NetErr e)
      /\ sent w' = sent w + S k.
Proof.
  unfold waitForLocalDocker.
  induction fuel as [|fuel IH]; intros w w' Hrun; [discriminate|].
  cbn in Hrun. destruct (docker (sent w)) as [data|e] eqn:Hnow.
  - exists 0, data. rewrite Nat.add_0_r. split; [exact Hnow|]. split; [lia|].
    destruct fuel; cbn in Hrun; inversion Hrun; cbn; lia.
  - destruct (IH _ _ Hrun) as (k & data & Hok & Herrs & Hsent).
    cbn in Hok, Herrs, Hsent.
    exists (S k), data. split; [|split].
    + rewrite <- Hok. f_equal. lia.
    + intros [|i] Hi.
      * rewrite Nat.add_0_r. eauto.
      * destruct (Herrs i) as [e' He']; [lia|]. exists e'. rewrite <- He'. f_equal. lia.
    + lia.
Qed.

Lemma waitForLocalDocker_first_success {T : Type} (docker : nat -> NetOutcome T) endpoint k :
  forall fuel w data,
    docker (sent w + k) = NetOk data ->
    (forall i, i < k -> exists e, docker (sent w + i) = NetErr e) ->
    k < fuel ->
    waitForLocalDocker docker endpoint fuel w
    = Returned tt {| sent := sent w + S k;
                     events := events w ++ polling endpoint 500 (S k) |}.
Proof.
  unfold waitForLocalDocker.
  induction k as [|k IH]; intros fuel w data Hok Herrs Hfuel;
    (destruct fuel as [|fuel]; [lia|]); cbn [waitForLocalDocker_loop].
  - rewrite Nat.add_0_r in Hok. rewrite Hok.
    destruct fuel; cbn [waitForLocalDocker_loop]; unfold sleep, emit, issued; cbn [sent events];
      rewrite <- app_assoc; do 2 f_equal; lia.
  - destruct (Herrs 0) as [e He]; [lia|]. rewrite Nat.add_0_r in He. rewrite He.
    rewrite (IH fuel _ data).
    + unfold sleep, emit, issued; cbn [sent events polling].
      rewrite <- !app_assoc. do 2 f_equal. lia.
    + rewrite <- Hok. cbn. f_equal. lia.
    + intros i Hi. destruct (Herrs (S i)) as [e' He']; [lia|].
      exists e'. rewrite <- He'. cbn. f_equal. lia.
    + lia.
Qed.

Lemma client_request_returned {T : Type} (net : nat -> NetOutcome T) :
  forall fuel w v w1,
    client_request env chalk_bold_green net fuel w = Returned v w1 ->
    sent w < sent w1
    /\ match v with
       | Some data => net (pred (sent w1)) = NetOk data
       | None => exists e, net (pred (sent w1)) = NetErr e
       end.
Proof.
  induction fuel as [|fuel IH]; intros w v w1 Hrun; [discriminate|].
  cbn in Hrun. destruct (net (sent w)) as [data|e] eqn:Hnow.
  - inversion Hrun; subst. cbn. split; [lia|exact Hnow].
  - destruct (JsString.includes (message e) "No service with id").
    + destruct (response e) as [[|m rest]|]; inversion Hrun; subst.
      cbn. split; [lia|eauto].
    + destruct (JsString.startsWith (message e) "No valid session").
      * destruct (IH _ _ _ Hrun) as [Hlt Hv]. cbn in Hlt. split; [lia|exact Hv].
      * destruct (JsString.includes (message e) "ECONNREFUSED"
                  && (JsString.includes (message e) "localhost"
                      || JsString.includes (message e) "127.0.0.1"));
          inversion Hrun; subst.
        cbn. split; [lia|eauto].
Qed.

Lemma waitForMigration_returned (net : nat -> NetOutcome MigrationStatusPayload) revision :
  forall fuel w w',
    waitForMigration env chalk_bold_green net revision fuel w = Returned tt w' ->
    exists n data,
      sent w <= n < sent w'
      /\ net n = NetOk data
      /\ migration_done revision (migrationStatus data) = true.
Proof.
  induction fuel as [|fuel IH]; intros w w' Hrun; [discriminate|].
  cbn [waitForMigration] in Hrun. unfold bind in Hrun.
  destruct (client_request env chalk_bold_green net (S fuel) w) as [v w1|e w1|] eqn:Hreq;
    try discriminate.
  destruct (client_request_returned net _ _ _ _ Hreq) as [Hlt Hv].
  destruct v as [data|]; cbn [destructure] in Hrun; [|discriminate].
  destruct (migration_done revision (migrationStatus data)) eqn:Hdone.
  - inversion Hrun; subst. exists (pred (sent w')), data. repeat split; [lia|lia|assumption..].
  - destruct (IH _ _ Hrun) as (n & data' & Hn & Hok & Hdone').
    cbn in Hn. exists n, data'. repeat split; [lia|lia|assumption..].
Qed.

(** C4, as amended. [waitForLocalDocker] never exits on an error: it never
    rejects; a poll that throws is followed by the 500 ms wait and another
    poll; it returns only after a successful response, and it does return,
    after the wait that follows the first one. [waitForMigration] returns
    normally only on a response that satisfies the revision-and-applied
    test, but it has no handler: an exception of its request ends the loop
    and reaches the caller. *)
Theorem wait_loops_and_errors {T : Type} (docker : nat -> NetOutcome T)
    (net : nat -> NetOutcome MigrationStatusPayload) endpoint revision :
  (forall fuel w e w', waitForLocalDocker docker endpoint fuel w <> Threw e w')
  /\ (forall fuel w e,
        docker (sent w) = NetErr e ->
        waitForLocalDocker docker endpoint (S fuel) w
        = waitForLocalDocker docker endpoint fuel (sleep 500 (issued (EvRequest endpoint) w)))
  /\ (forall fuel w w',
        waitForLocalDocker docker endpoint fuel w = Returned tt w' ->
        exists k data,
          docker (sent w + k) = NetOk data
          /\ (forall i, i < k -> exists e, docker (sent w + i) = NetErr e)
          /\ sent w' = sent w + S k)
  /\ (forall k fuel w data,
        docker (sent w + k) = NetOk data ->
        (forall i, i < k -> exists e, docker (sent w + i) = NetErr e) ->
        k < fuel ->
        waitForLocalDocker docker endpoint fuel w
        = Returned tt {| sent := sent w + S k;
                         events := events w ++ polling endpoint 500 (S k) |})
  /\ (forall fuel w w',
        waitForMigration env chalk_bold_green net revision fuel w = Returned tt w' ->
        exists n data,
          sent w <= n < sent w'
          /\ net n = NetOk data
          /\ migration_done revision (migrationStatus data) = true)
  /\ (forall fuel w e w1,
        client_request env chalk_bold_green net (S fuel) w = Threw e w1 ->
        waitForMigration env chalk_bold_green net revision (S fuel) w = Threw e w1).
Proof.
  repeat apply conj.
  - intros fuel w e w'. apply waitForLocalDocker_never_throws.
  - intros fuel w e Hnow. unfold waitForLocalDocker.
    cbn [waitForLocalDocker_loop]. rewrite Hnow. reflexivity.
  - apply waitForLocalDocker_returned.
  - intros k. apply waitForLocalDocker_first_success.
  - apply waitForMigration_returned.
  - intros fuel w e w1 Hreq. cbn [waitForMigration]. unfold bind.
    rewrite Hreq. reflexivity.
Qed.

(** ** Fuel

    A result reached within some budget is the result for every larger
    budget: [OutOfFuel] is the only answer that depends on the budget. *)

Lemma client_request_more_fuel {T : Type} (net : nat -> NetOutcome T) :
  forall fuel w r,
    client_request env chalk_bold_green net fuel w = r -> r <> OutOfFuel ->
    forall extra, client_request env chalk_bold_green net (fuel + extra) w = r.
Proof.
  induction fuel as [|fuel IH]; intros w r Hrun Hr extra.
  - cbn in Hrun. congruence.
  - cbn in Hrun |- *. destruct (net (sent w)) as [data|e]; [exact Hrun|].
    destruct (JsString.includes (message e) "No service with id"); [exact Hrun|].
    destruct (JsString.startsWith (message e) "No valid session"); [|exact Hrun].
    apply IH; assumption.
Qed.

Lemma waitForMigration_more_fuel (net : nat -> NetOutcome MigrationStatusPayload) revision :
  forall fuel w r,
    waitForMigration env chalk_bold_green net revision fuel w = r -> r <> OutOfFuel ->
    forall extra, waitForMigration env chalk_bold_green net revision (fuel + extra) w = r.
Proof.
  induction fuel as [|fuel IH]; intros w r Hrun Hr extra.
  - cbn in Hrun. congruence.
  - cbn [waitForMigration Nat.add] in Hrun |- *. unfold bind in Hrun |- *.
    destruct (client_request env chalk_bold_green net (S fuel) w) as [v w1|e w1|] eqn:Hreq;
      [| |congruence];
      pose proof (client_request_more_fuel net (S fuel) w _ Hreq ltac:(discriminate) extra)
        as Hmore;
      cbn [Nat.add] in Hmore; rewrite Hmore; [|exact Hrun].
    destruct v as [data|]; cbn [destructure] in Hrun |- *; [|exact Hrun].
    destruct (migration_done revision (migrationStatus data)); [exact Hrun|].
    apply IH; assumption.
Qed.

Lemma waitForLocalDocker_more_fuel {T : Type} (docker : nat -> NetOutcome T) endpoint :
  forall fuel valid w r,
    waitForLocalDocker_loop docker endpoint fuel valid w = r -> r <> OutOfFuel ->
    forall extra, waitForLocalDocker_loop docker endpoint (fuel + extra) valid w = r.
Proof.
  induction fuel as [|fuel IH]; intros valid w r Hrun Hr extra;
    destruct valid; cbn [waitForLocalDocker_loop Nat.add] in Hrun |- *.
  - destruct extra; exact Hrun.
  - congruence.
  - exact Hrun.
  - apply IH; assumption.
Qed.

(** ** Records pass through *)

(** C6. Whatever the service answers, [listProjects] resolves with the
    [listProjects] array of that answer itself, and [getPats] with the
    [node] of every edge of [permanentAuthTokens.edges], as many and in
    the same order: the i-th token returned is the record the i-th edge
    carries, so its [id], [name] and [token] are the ones received (and
    with no [permanentAuthTokens] in the answer [getPats] resolves with
    the empty list). Each method sends one request and does nothing
    else. *)
Theorem records_pass_through
    (projectsNet : nat -> NetOutcome ListProjectsPayload)
    (patsNet : nat -> NetOutcome ProjectPatPayload) fuel w :
  let w1 := issued (EvRequest activeEndpoint) w in
  (forall data,
      projectsNet (sent w) = NetOk data ->
      listProjects env chalk_bold_green projectsNet (S fuel) w
      = Returned (payload_listProjects data) w1)
  /\ (forall tokens,
        patsNet (sent w) = NetOk (mkProjectPatPayload (Some tokens)) ->
        exists pats,
          getPats env chalk_bold_green patsNet (S fuel) w = Returned pats w1
          /\ length pats = length (edges tokens)
          /\ forall i edge,
               nth_error (edges tokens) i = Some edge ->
               nth_error pats i = Some (node edge)
               /\ exists pat,
                    nth_error pats i = Some pat
                    /\ PAT.id pat = PAT.id (node edge)
                    /\ PAT.name pat = PAT.name (node edge)
                    /\ PAT.token pat = PAT.token (node edge))
  /\ (patsNet (sent w) = NetOk (mkProjectPatPayload None) ->
      getPats env chalk_bold_green patsNet (S fuel) w = Returned [] w1).
Proof.
  intros w1. repeat apply conj.
  - intros data Hnet. unfold listProjects, bind.
    rewrite (client_request_ok projectsNet fuel w data Hnet). reflexivity.
  - intros tokens Hnet. exists (map (fun edge => node edge) (edges tokens)).
    unfold getPats, bind.
    rewrite (client_request_ok patsNet fuel w _ Hnet). cbn.
    split; [reflexivity|]. split; [apply length_map|].
    intros i edge Hi.
    assert (Hmap : nth_error (map (fun e => node e) (edges tokens)) i = Some (node edge))
      by (rewrite nth_error_map, Hi; reflexivity).
    split; [exact Hmap|]. exists (node edge). auto.
  - intros Hnet. unfold getPats, bind.
    rewrite (client_request_ok patsNet fuel w _ Hnet). reflexivity.
Qed.

(** ** Finding the cluster of a service *)

Lemma getCluster_scan_reporting (net : nat -> Cluster.t -> NetOutcome ClusterProjectPayload) :
  forall todo foundClusters w,
    getCluster_scan net todo foundClusters w
    = (foundClusters ++ reporting net (sent w) todo,
       {| sent := sent w + length todo;
          events := events w ++ map (fun c => EvRequest (Cluster.deployEndpoint c)) todo |}).
Proof.
  induction todo as [|cluster rest IH]; intros foundClusters w.
  - cbn. rewrite !app_nil_r, Nat.add_0_r. destruct w; reflexivity.
  - cbn [getCluster_scan cluster_request reporting reports].
    destruct (net (sent w) cluster) as [[[project|]]|e];
      cbn [payload_project];
      rewrite IH; unfold issued; cbn [sent events map length];
      (apply f_equal2; [rewrite <- ?app_assoc; reflexivity
                       |apply f_equal2; [lia|rewrite <- app_assoc; reflexivity]]).
Qed.

(** C8. [getCluster] asks every configured cluster once, in order, and
    counts a cluster whose query throws (or resolves with no project) as
    not having the project. With exactly one reporting cluster it resolves
    with that cluster; with none it resolves with [null]; with more than
    one it throws an error whose message names every reporting cluster.
    Apart from the requests, one per configured cluster, it leaves no
    trace: no message on the output and no timer. *)
Theorem getCluster_verdict (net : nat -> Cluster.t -> NetOutcome ClusterProjectPayload)
    name stage w :
  let clusters := Environment.clusters env in
  let found := reporting net (sent w) clusters in
  let w' := {| sent := sent w + length clusters;
               events := events w
                         ++ map (fun c => EvRequest (Cluster.deployEndpoint c)) clusters |} in
  getCluster env net name stage w
  = match found with
    | [] => Returned None w'
    | [cluster] => Returned (Some cluster) w'
    | _ => Threw (Raised (Error (ambiguous_message name stage found))) w'
    end
  /\ (forall cluster,
        In cluster found ->
        JsString.includes (ambiguous_message name stage found) (Cluster.name cluster) = true)
  /\ (forall i cluster e,
        net i cluster = NetErr e -> reports (net i cluster) = false).
Proof.
  intros clusters found w'. repeat apply conj.
  - unfold getCluster. rewrite getCluster_scan_reporting. cbn [app].
    fold clusters. fold found. fold w'.
    destruct found as [|c1 [|c2 rest]]; reflexivity.
  - intros cluster Hin. unfold ambiguous_message.
    destruct (concat_infix ", " (Cluster.name cluster) (map Cluster.name found))
      as (before & after & Heq); [apply in_map, Hin|].
    rewrite Heq.
    rewrite <- !append_assoc. rewrite append_assoc.
    apply includes_infix.
  - intros i cluster e Hnet. rewrite Hnet. reflexivity.
Qed.

(** ** Looking a function up by name *)

(** C9. [getFunction] matches names without regard to case and to
    surrounding white space: two names match, that is their lowercased,
    trimmed forms are equal, exactly when each is, between white space,
    a string that agrees with the other's unit by unit up to the case of
    its letters. [getFunction] resolves with the first function of the
    project's list whose name matches the name asked for, and with [null]
    when no function's name does. *)
Theorem getFunction_first_match (net : nat -> NetOutcome FunctionsPayload)
    functionName fuel w fns w1 :
  getFunctions env chalk_bold_green net fuel w = Returned fns w1 ->
  (exists result,
      getFunction env chalk_bold_green net functionName fuel w = Returned result w1
      /\ match result with
         | Some fn =>
             exists before after,
               fns = before ++ fn :: after
               /\ normalizeName (FunctionInfo.name fn) = normalizeName functionName
               /\ Forall (fun other => normalizeName (FunctionInfo.name other)
                                       <> normalizeName functionName) before
         | None =>
             Forall (fun other => normalizeName (FunctionInfo.name other)
                                  <> normalizeName functionName) fns
         end
      /\ match result with
         | Some fn =>
             exists before after,
               fns = before ++ fn :: after
               /\ sameName (FunctionInfo.name fn) functionName
               /\ Forall (fun other => ~ sameName (FunctionInfo.name other) functionName) before
         | None =>
             Forall (fun other => ~ sameName (FunctionInfo.name other) functionName) fns
         end)
  /\ (forall a b, normalizeName a = normalizeName b <-> sameName a b)
  /\ (forall a b, sameModuloCase a b = true -> normalizeName a = normalizeName b)
  /\ (forall before a after,
        allWhiteSpace before = true -> allWhiteSpace after = true ->
        normalizeName (before ++ a ++ after) = normalizeName a).
Proof.
  intros Hfns. repeat apply conj.
  - exists (find (nameMatches functionName) fns). split; [|split].
    + unfold getFunction, bind. rewrite Hfns. reflexivity.
    + pose proof (find_first (nameMatches functionName) fns) as Hfind.
      destruct (find (nameMatches functionName) fns) as [fn|].
      * destruct Hfind as (before & after & Heq & Hfn & Hnone).
        exists before, after. repeat split; [exact Heq|apply String.eqb_eq, Hfn|].
        eapply Forall_impl; [|exact Hnone].
        intros other Hother. apply String.eqb_neq, Hother.
      * eapply Forall_impl; [|exact Hfind].
        intros other Hother. apply String.eqb_neq, Hother.
    + pose proof (find_first (nameMatches functionName) fns) as Hfind.
      destruct (find (nameMatches functionName) fns) as [fn|].
      * destruct Hfind as (before & after & Heq & Hfn & Hnone).
        exists before, after. repeat split; [exact Heq| |].
        -- apply normalizeName_sameName, String.eqb_eq, Hfn.
        -- eapply Forall_impl; [|exact Hnone].
           intros other Hother Hsame. apply normalizeName_sameName in Hsame.
           apply String.eqb_neq in Hother. contradiction.
      * eapply Forall_impl; [|exact Hfind].
        intros other Hother Hsame. apply normalizeName_sameName in Hsame.
        apply String.eqb_neq in Hother. contradiction.
  - intros a b. apply normalizeName_sameName.
  - intros a b Hab. unfold normalizeName.
    rewrite (toLowerCase_sameModuloCase a b Hab). reflexivity.
  - intros before a after Hbefore Hafter. unfold normalizeName.
    rewrite !toLowerCase_append. apply trim_padding.
    + rewrite allWhiteSpace_toLowerCase. exact Hbefore.
    + rewrite allWhiteSpace_toLowerCase. exact Hafter.
Qed.

End ClientProperties.

(** ** Export, import and reset *)

Section TransferProperties.

Variable env : Environment.t.
Variable getApiEndpoint getExportEndpoint getImportEndpoint :
  Cluster.t -> string -> string -> string.
Variable Json : Type.
Variable JSON_parse : string -> option Json.

(** C10. Given the text of the HTTP response body, [download], [upload]
    and [reset] resolve with [JSON.parse] of that text when it parses, and
    otherwise reject with [new Error(text)], an error whose message is the
    text exactly as received. Each has issued its one POST and nothing
    else. *)
Theorem body_parsed_or_raw (fetch : nat -> NetOutcome string)
    serviceName stage exportData token w text :
  fetch (sent w) = NetOk text ->
  let active := Environment.activeCluster env in
  let posted url body := issued (EvFetch url (bearer token) body) w in
  let outcome (w' : World) : Result Json :=
    match JSON_parse text with
    | Some value => Returned value w'
    | None => Threw (Raised {| message := text; response := None |}) w'
    end in
  download env getExportEndpoint Json JSON_parse fetch serviceName stage exportData token w
  = outcome (posted (getExportEndpoint active serviceName stage) exportData)
  /\ upload env getImportEndpoint Json JSON_parse fetch serviceName stage exportData token w
     = outcome (posted (getImportEndpoint active serviceName stage) exportData)
  /\ reset env getApiEndpoint Json JSON_parse fetch serviceName stage token w
     = outcome (posted (getApiEndpoint active serviceName stage) reset_body).
Proof.
  intros Hfetch active posted outcome.
  unfold download, upload, reset, bind, fetch_text, Error.
  rewrite Hfetch. subst outcome posted active. cbn beta.
  destruct (JSON_parse text); repeat split.
Qed.

End TransferProperties.

(** ** The migration-step contract *)

Lemma MIGRATION_FRAGMENT_parses :
  GraphQL.parseFragment MIGRATION_FRAGMENT = Some MigrationFragment.
Proof. vm_compute. reflexivity. Qed.

(** C7, as amended. [MIGRATION_FRAGMENT] names eleven migration-step
    kinds. Nine of them, every kind other than [CreateRelation] and
    [DeleteRelation], have an object type of that name in
    [MigrationStepType.allTypes], and every object type of [allTypes] is
    named by the fragment. On each of the nine, every field the fragment
    selects (by its name before aliasing), other than [unique] and
    [default], is a field the object type declares. *)
Theorem migration_contract :
  stepKinds
  = [ "CreateEnum"; "CreateField"; "CreateModel"; "CreateRelation";
      "DeleteEnum"; "DeleteField"; "DeleteModel"; "DeleteRelation";
      "UpdateEnum"; "UpdateField"; "UpdateModel" ]
  /\ (forall kind,
        In kind stepKinds -> kind <> "CreateRelation" -> kind <> "DeleteRelation" ->
        exists o,
          MigrationStepType.objectTypeNamed kind = Some o
          /\ In (Sangria.Object o) MigrationStepType.allTypes
          /\ forall field,
               In field (selectedOn kind) -> field <> "unique" -> field <> "default" ->
               In field (Sangria.declaredFields o))
  /\ (forall o,
        In (Sangria.Object o) MigrationStepType.allTypes ->
        In (Sangria.objectName o) stepKinds).
Proof.
  split; [reflexivity|]. split.
  - intros kind Hkind Hcreate Hdelete. cbn in Hkind.
    repeat (destruct Hkind as [<-|Hkind]; [|]);
      try contradiction; try congruence;
      (eexists; split; [reflexivity|]; split; [cbn; tauto|]);
      intros field Hfield Hunique Hdefault; cbn in Hfield;
      repeat (destruct Hfield as [<-|Hfield]; [|]);
      try contradiction; try congruence; cbn; tauto.
  - intros o Ho. cbn in Ho.
    repeat (destruct Ho as [Ho|Ho]; [|]);
      try contradiction; try discriminate Ho;
      inversion Ho; subst o; cbn; tauto.
Qed.

(** C2 at a gateway timeout. *)
Lemma client_rethrows_unmatched_witness :
  client_request demo_env plain (@always_failing ListProjectsPayload gateway_timeout) 1 world0
  = Threw (Raised gateway_timeout)
      (issued (EvRequest "http://localhost:60000/cluster") world0).
Proof.
  exact (client_rethrows_unmatched demo_env plain (always_failing gateway_timeout)
           0 world0 gateway_timeout eq_refl eq_refl eq_refl eq_refl).
Defined.

(** C3 as stated fails: an error that starts with "No valid session" makes
    the wrapper ask again, and when the second request succeeds the caller
    gets its data; no hint was given on the way. *)
Lemma session_error_yields_no_hint :
  exists w',
    expired_once 0 = NetErr (Error "No valid session: please log in")
    /\ JsString.startsWith "No valid session: please log in" "No valid session" = true
    /\ client_request demo_env plain expired_once 2 world0 = Returned (Some demo_projects) w'
    /\ hints (events w') = []
    /\ events w' = [EvRequest "http://localhost:60000/cluster";
                    EvRequest "http://localhost:60000/cluster"].
Proof. eexists. repeat split. Qed.

(** C3 as amended, at a refused connection to the local cluster. *)
Lemma client_hint_or_retry_witness :
  client_request demo_env plain (@always_failing ListProjectsPayload connection_refused) 1 world0
  = Returned None
      (out_error
         "Could not connect to local cluster. Please use graphcool local up to start your local Graphcool cluster."
         (issued (EvRequest "http://localhost:60000/cluster") world0)).
Proof.
  exact (proj1 (proj2 (client_hint_or_retry demo_env plain (always_failing connection_refused)
                         0 world0 connection_refused eq_refl))
           eq_refl eq_refl eq_refl).
Defined.

(** C1 at a migration applied by the third status query. *)
Lemma waitForMigration_returns_at_first_witness :
  exists w',
    waitForMigration demo_env plain (answering applied_at_third) 3 5 world0 = Returned tt w'
    /\ sent w' = 3
    /\ events w' = [EvRequest "http://localhost:60000/cluster"; EvSleep 500;
                    EvRequest "http://localhost:60000/cluster"; EvSleep 500;
                    EvRequest "http://localhost:60000/cluster"]
    /\ timers (events w') = [500; 500]%Z.
Proof.
  refine (proj2 (waitForMigration_returns_at_first demo_env plain applied_at_third 3 2 world0
                   _ eq_refl) 5 _).
  - intros [|[|i]] Hi; [reflexivity|reflexivity|lia].
  - lia.
Defined.

(** C5 at a migration that stays pending: a thousand polls are not enough. *)
Lemma waitForMigration_unbounded_witness :
  waitForMigration demo_env plain (answering never_applied) 3 1000 world0 = OutOfFuel.
Proof.
  exact (proj1 (waitForMigration_unbounded demo_env plain never_applied 3 world0)
           (fun n => eq_refl) 1000).
Defined.

(** C4 as stated fails for [waitForMigration]: a gateway timeout on the
    first status query ends the loop with that error, after one request
    and without any successful response. *)
Lemma waitForMigration_exits_on_error :
  always_failing gateway_timeout 0 = @NetErr MigrationStatusPayload gateway_timeout
  /\ waitForMigration demo_env plain (always_failing gateway_timeout) 3 5 world0
     = Threw (Raised gateway_timeout)
         {| sent := 1; events := [EvRequest "http://localhost:60000/cluster"] |}.
Proof. split; reflexivity. Qed.

(** C4 as amended, at a local cluster that refuses two connections. *)
Lemma wait_loops_and_errors_witness :
  waitForLocalDocker booting "http://localhost:60000" 4 world0
  = Returned tt
      {| sent := 3;
         events := [EvRequest "http://localhost:60000"; EvSleep 500;
                    EvRequest "http://localhost:60000"; EvSleep 500;
                    EvRequest "http://localhost:60000"; EvSleep 500] |}.
Proof.
  refine (proj1 (proj2 (proj2 (proj2
            (wait_loops_and_errors demo_env plain booting (answering never_applied)
               "http://localhost:60000" 3))))
            2 4 world0 tt eq_refl _ _).
  - intros [|[|i]] Hi; [exists connection_refused; reflexivity
                       |exists connection_refused; reflexivity|lia].
  - lia.
Defined.

(** C6 at the tokens of a project. *)
Lemma records_pass_through_witness :
  exists pats,
    getPats demo_env plain (fun _ => NetOk (mkProjectPatPayload (Some demo_pats))) 1 world0
    = Returned pats (issued (EvRequest "http://localhost:60000/cluster") world0)
    /\ length pats = 2
    /\ forall i edge,
         nth_error (edges demo_pats) i = Some edge ->
         nth_error pats i = Some (node edge)
         /\ exists pat,
              nth_error pats i = Some pat
              /\ PAT.id pat = PAT.id (node edge)
              /\ PAT.name pat = PAT.name (node edge)
              /\ PAT.token pat = PAT.token (node edge).
Proof.
  exact (proj1 (proj2 (records_pass_through demo_env plain
                         (fun _ => NetOk demo_projects)
                         (fun _ => NetOk (mkProjectPatPayload (Some demo_pats)))
                         0 world0))
           demo_pats eq_refl).
Defined.

(** C8 with the project in the shared cluster only. *)
Lemma getCluster_verdict_witness :
  getCluster demo_env only_shared "blog" "dev" world0
  = Returned (Some shared_cluster)
      {| sent := 2;
         events := [EvRequest "http://localhost:60000/cluster";
                    EvRequest "https://eu1.graph.cool/cluster"] |}.
Proof. exact (proj1 (getCluster_verdict demo_env only_shared "blog" "dev" world0)). Defined.

(** C9: asking for " RESIZE " finds "Resize", the first of the two
    functions whose name matches, and not "sendMail", listed before it. *)
Lemma getFunction_first_match_witness :
  getFunction demo_env plain (fun _ => NetOk (mkFunctionsPayload demo_functions))
    " RESIZE " 1 world0
  = Returned
      (Some (FunctionInfo.mk "Resize" "f2" "WEBHOOK" (FunctionInfo.mkStats 10 1)
               "RequestPipelineMutationFunction"))
      (issued (EvRequest "http://localhost:60000/cluster") world0)
  /\ sameName "Resize" " RESIZE "
  /\ ~ sameName "sendMail" " RESIZE ".
Proof.
  destruct (getFunction_first_match demo_env plain
              (fun _ => NetOk (mkFunctionsPayload demo_functions))
              " RESIZE " 1 world0 _ _ eq_refl) as (_ & Hsame & _).
  split; [reflexivity|]. split.
  - apply Hsame. reflexivity.
  - intros H. apply Hsame in H. discriminate H.
Defined.

(** C10 at a body that is not JSON. *)
Lemma body_parsed_or_raw_witness :
  download demo_env (endpoint_under "/export") bool parse_boolean
    (fun _ => NetOk "Bad Gateway") "blog" "dev" "{}" (Some "eyJ.ci") world0
  = Threw (Raised {| message := "Bad Gateway"; response := None |})
      (issued (EvFetch "http://localhost:60000/cluster/blog/dev/export" "Bearer eyJ.ci" "{}")
         world0).
Proof.
  exact (proj1 (body_parsed_or_raw demo_env (endpoint_under EmptyString) (endpoint_under "/export")
                  (endpoint_under "/import") bool parse_boolean
                  (fun _ => NetOk "Bad Gateway") "blog" "dev" "{}" (Some "eyJ.ci")
                  world0 "Bad Gateway" eq_refl)).
Defined.

(** C7 as stated fails: the fragment selects [unique] on [CreateField],
    whose object type declares [isUnique] and no [unique]; and it names
    eleven kinds, one of them [CreateRelation], for which [allTypes] has no
    object type. *)
Lemma fragment_selects_undeclared :
  In "unique" (selectedOn "CreateField")
  /\ MigrationStepType.objectTypeNamed "CreateField" = Some MigrationStepType.CreateFieldType
  /\ existsb (String.eqb "unique") (Sangria.declaredFields MigrationStepType.CreateFieldType) = false
  /\ length stepKinds = 11
  /\ In "CreateRelation" stepKinds
  /\ MigrationStepType.objectTypeNamed "CreateRelation" = None.
Proof. cbn. repeat split; tauto. Qed.

(** C7 as amended, at [typeName] on [UpdateField]. *)
Lemma migration_contract_witness :
  exists o,
    MigrationStepType.objectTypeNamed "UpdateField" = Some o
    /\ In (Sangria.Object o) MigrationStepType.allTypes
    /\ forall field,
         In field (selectedOn "UpdateField") -> field <> "unique" -> field <> "default" ->
         In field (Sangria.declaredFields o).
Proof.
  refine (proj1 (proj2 migration_contract) "UpdateField" _ _ _).
  - cbn. tauto.
  - discriminate.
  - discriminate.
Defined.

(** * Further properties of the client *)

Section WrapperRetries.

Variable env : Environment.t.
Variable chalk_bold_green : string -> string.

Let activeEndpoint : string := Cluster.deployEndpoint (Environment.activeCluster env).

Lemma backToBack_0 endpoint w : backToBack endpoint 0 w = w.
Proof.
  destruct w as [n trace]. unfold backToBack. cbn.
  rewrite Nat.add_0_r, app_nil_r. reflexivity.
Qed.

Lemma backToBack_S endpoint k w :
  backToBack endpoint k (issued (EvRequest endpoint) w) = backToBack endpoint (S k) w.
Proof.
  unfold backToBack, issued. cbn. f_equal; [lia|].
  rewrite <- app_assoc. reflexivity.
Qed.

Lemma issued_backToBack endpoint k w :
  issued (EvRequest endpoint) (backToBack endpoint k w) = backToBack endpoint (S k) w.
Proof.
  unfold backToBack, issued. cbn [sent events]. f_equal; [lia|].
  rewrite <- app_assoc. f_equal. symmetry. apply (repeat_cons k (EvRequest endpoint)).
Qed.

Lemma sessionExpired_tests e :
  sessionExpired e = true ->
  JsString.includes (message e) "No service with id" = false
  /\ JsString.startsWith (message e) "No valid session" = true.
Proof.
  unfold sessionExpired. intros H. apply andb_true_iff in H as [H1 H2].
  apply negb_true_iff in H1. split; assumption.
Qed.

Lemma client_request_retry {T : Type} (net : nat -> NetOutcome T) k :
  forall fuel w,
    (forall i, i < k -> exists e, net (sent w + i) = NetErr e /\ sessionExpired e = true) ->
    client_request env chalk_bold_green net (k + fuel) w
    = client_request env chalk_bold_green net fuel (backToBack activeEndpoint k w).
Proof.
  induction k as [|k IH]; intros fuel w Hexpired.
  - rewrite backToBack_0. reflexivity.
  - destruct (Hexpired 0) as (e & Hnet & He); [lia|].
    rewrite Nat.add_0_r in Hnet.
    destruct (sessionExpired_tests e He) as [Hservice Hsession].
    cbn [Nat.add client_request cluster_request].
    rewrite Hnet, Hservice, Hsession.
    rewrite IH.
    + fold activeEndpoint. rewrite backToBack_S. reflexivity.
    + intros i Hi. destruct (Hexpired (S i)) as (e' & Hnet' & He'); [lia|].
      exists e'. split; [|exact He'].
      rewrite <- Hnet'. cbn. f_equal. lia.
Qed.

Lemma client_request_after_retries {T : Type} (net : nat -> NetOutcome T) w k fuel data :
  (forall i, i < k -> exists e, net (sent w + i) = NetErr e /\ sessionExpired e = true) ->
  net (sent w + k) = NetOk data ->
  k < fuel ->
  client_request env chalk_bold_green net fuel w
  = Returned (Some data) (backToBack activeEndpoint (S k) w).
Proof.
  intros Hexpired Hdata Hfuel.
  replace fuel with (k + S (fuel - S k)) by lia.
  rewrite (client_request_retry net k _ w Hexpired).
  rewrite (client_request_ok env chalk_bold_green net _ _ data) by exact Hdata.
  fold activeEndpoint. rewrite issued_backToBack. reflexivity.
Qed.

Lemma timers_requests endpoint k : timers (repeat (EvRequest endpoint) k) = [].
Proof. induction k as [|k IH]; [reflexivity|exact IH]. Qed.

Lemma hints_requests endpoint k : hints (repeat (EvRequest endpoint) k) = [].
Proof. induction k as [|k IH]; [reflexivity|exact IH]. Qed.

Lemma requests_requests endpoint k : requests (repeat (EvRequest endpoint) k) = k.
Proof. induction k as [|k IH]; [reflexivity|cbn; rewrite IH; reflexivity]. Qed.

Lemma hints_app (t1 t2 : list Event) : hints (t1 ++ t2) = hints t1 ++ hints t2.
Proof.
  induction t1 as [|ev t1 IH]; [reflexivity|].
  destruct ev; cbn; rewrite IH; reflexivity.
Qed.

Lemma requests_app (t1 t2 : list Event) : requests (t1 ++ t2) = requests t1 + requests t2.
Proof.
  induction t1 as [|ev t1 IH]; [reflexivity|].
  destruct ev; cbn; rewrite IH; reflexivity.
Qed.

(** X1. The wrapper retries an expired session at once and without limit.
    When the service answers "No valid session" to [k] requests in a row
    and then answers with data, the wrapper resolves with that data after
    [k + 1] requests sent back to back: no timer runs between them and no
    hint is given. When the service answers "No valid session" for ever,
    the wrapper is still retrying whatever budget it is given. *)
Theorem client_retries_expired_session {T : Type} (net : nat -> NetOutcome T) w :
  (forall k fuel data,
      (forall i, i < k -> exists e, net (sent w + i) = NetErr e /\ sessionExpired e = true) ->
      net (sent w + k) = NetOk data ->
      k < fuel ->
      exists w',
        client_request env chalk_bold_green net fuel w = Returned (Some data) w'
        /\ sent w' = sent w + S k
        /\ events w' = events w ++ repeat (EvRequest activeEndpoint) (S k)
        /\ timers (events w') = timers (events w)
        /\ hints (events w') = hints (events w))
  /\ ((forall i, exists e, net (sent w + i) = NetErr e /\ sessionExpired e = true) ->
      forall fuel, client_request env chalk_bold_green net fuel w = OutOfFuel).
Proof.
  split.
  - intros k fuel data Hexpired Hdata Hfuel.
    exists (backToBack activeEndpoint (S k) w).
    split; [exact (client_request_after_retries net w k fuel data Hexpired Hdata Hfuel)|].
    unfold backToBack. cbn [sent events].
    rewrite timers_app, hints_app, timers_requests, hints_requests, !app_nil_r.
    repeat split.
  - intros Hexpired fuel.
    replace fuel with (fuel + 0) by lia.
    rewrite (client_request_retry net fuel 0 w); [reflexivity|].
    intros i _. apply Hexpired.
Qed.

(** ** Methods behind the wrapper *)

Lemma through_wrapper {T R : Type} (net : nat -> NetOutcome T) (k : T -> M R) fuel w :
  (await v <- client_request env chalk_bold_green net fuel ;;
   await data <- destructure v ;;
   k data) w
  = match client_request env chalk_bold_green net fuel w with
    | Returned (Some data) w1 => k data w1
    | Returned None w1 => Threw TypeError w1
    | Threw e w1 => Threw e w1
    | OutOfFuel => OutOfFuel
    end.
Proof.
  unfold bind.
  destruct (client_request env chalk_bold_green net fuel w) as [[data|] w1|e w1|];
    reflexivity.
Qed.

Lemma client_request_expiredUntil {T : Type} (data : T) k fuel w :
  k < fuel ->
  client_request env chalk_bold_green (expiredUntil (sent w + k) data) fuel w
  = Returned (Some data) (backToBack activeEndpoint (S k) w).
Proof.
  intros Hfuel. apply client_request_after_retries; [|
    unfold expiredUntil; rewrite (proj2 (Nat.ltb_ge _ _)) by lia; reflexivity|exact Hfuel].
  intros i Hi. exists (Error "No valid session").
  unfold expiredUntil. rewrite (proj2 (Nat.ltb_lt _ _)) by lia. split; reflexivity.
Qed.

(** X2. Session retries are invisible to the caller of [addProject],
    [getDeployUrl], [deploy], [getProjectName] and [exportProjectData]:
    when the session is expired for the first [k] requests and the
    service then answers, each method resolves with the field of that
    answer it is after, as received, having sent [k + 1] requests back to
    back and nothing else. *)
Theorem methods_see_through_retries {DeployPayload : Type}
    (project : SimpleProjectInfo.t) (url : string) (payload : DeployPayload)
    (name exportUrl : string) k fuel w :
  k < fuel ->
  let ready := sent w + k in
  let w' := backToBack activeEndpoint (S k) w in
  addProject env chalk_bold_green (expiredUntil ready (mkAddProjectPayload project)) fuel w
  = Returned project w'
  /\ getDeployUrl env chalk_bold_green (expiredUntil ready (mkDeployUrlPayload url)) fuel w
     = Returned url w'
  /\ deploy env chalk_bold_green (expiredUntil ready (mkDeployResponse payload)) fuel w
     = Returned payload w'
  /\ getProjectName env chalk_bold_green (expiredUntil ready (mkProjectNamePayload name)) fuel w
     = Returned name w'
  /\ exportProjectData env chalk_bold_green (expiredUntil ready (mkExportPayload exportUrl)) fuel w
     = Returned exportUrl w'.
Proof.
  intros Hfuel ready w'.
  unfold addProject, getDeployUrl, deploy, getProjectName, exportProjectData.
  rewrite !through_wrapper. subst ready.
  rewrite !client_request_expiredUntil by exact Hfuel.
  repeat split.
Qed.

Lemma client_request_localRefused {T : Type} (e : JsError) fuel w :
  localRefused e = true ->
  client_request env chalk_bold_green (@always_failing T e) (S fuel) w
  = Returned None (out_error (localHint chalk_bold_green) (issued (EvRequest activeEndpoint) w)).
Proof.
  unfold localRefused. intros H.
  apply andb_true_iff in H as [H Hlocal]. apply andb_true_iff in H as [Hservice Hsession].
  apply negb_true_iff in Hservice, Hsession.
  cbn [client_request cluster_request always_failing].
  rewrite Hservice, Hsession, Hlocal. reflexivity.
Qed.

(** X3. A hint is not the end of a call. When the request fails with the
    error of an unreachable local cluster, the wrapper gives its hint and
    resolves with [undefined]; the method that called it then reads a
    field of [undefined] and, once [out.error] has returned, rejects with
    a [TypeError]: neither a value nor the original error reaches the
    caller. This holds for every method that goes through the wrapper, and
    it ends [waitForMigration] after one poll. *)
Theorem methods_fail_after_hint {DeployPayload : Type} (e : JsError)
    (functionName : string) (projectIds : list string) (revision : Z) fuel w :
  localRefused e = true ->
  let w' := out_error (localHint chalk_bold_green) (issued (EvRequest activeEndpoint) w) in
  addProject env chalk_bold_green (always_failing e) (S fuel) w = Threw TypeError w'
  /\ getDeployUrl env chalk_bold_green (always_failing e) (S fuel) w = Threw TypeError w'
  /\ @deploy env chalk_bold_green DeployPayload (always_failing e) (S fuel) w
     = Threw TypeError w'
  /\ listProjects env chalk_bold_green (always_failing e) (S fuel) w = Threw TypeError w'
  /\ getPats env chalk_bold_green (always_failing e) (S fuel) w = Threw TypeError w'
  /\ getFunctions env chalk_bold_green (always_failing e) (S fuel) w = Threw TypeError w'
  /\ getFunction env chalk_bold_green (always_failing e) functionName (S fuel) w
     = Threw TypeError w'
  /\ getFunctionLogs env chalk_bold_green (always_failing e) (S fuel) w = Threw TypeError w'
  /\ getAllFunctionLogs env chalk_bold_green (always_failing e) (S fuel) w = Threw TypeError w'
  /\ getProjectName env chalk_bold_green (always_failing e) (S fuel) w = Threw TypeError w'
  /\ deleteProjects env chalk_bold_green (fun _ _ _ => NetErr e) projectIds (S fuel) w
     = Threw TypeError w'
  /\ exportProjectData env chalk_bold_green (always_failing e) (S fuel) w = Threw TypeError w'
  /\ waitForMigration env chalk_bold_green (always_failing e) revision (S fuel) w
     = Threw TypeError w'.
Proof.
  intros He w'.
  pose proof (fun T => @client_request_localRefused T e fuel w He) as Hhint.
  unfold always_failing in Hhint |- *.
  unfold addProject, getDeployUrl, deploy, listProjects, getPats, getFunctions, getFunction,
    getFunctionLogs, getAllFunctionLogs, getProjectName, deleteProjects, exportProjectData.
  cbn [waitForMigration]. unfold bind. rewrite !Hhint. repeat split.
  unfold getFunctions, bind. rewrite Hhint. reflexivity.
Qed.

(** ** What a run of [waitForMigration] looks like *)

Lemma client_request_trace {T : Type} (net : nat -> NetOutcome T) :
  forall fuel w w1,
    final (client_request env chalk_bold_green net fuel w) = Some w1 ->
    exists n tail,
      1 <= n
      /\ sent w1 = sent w + n
      /\ events w1 = events w ++ repeat (EvRequest activeEndpoint) n ++ tail
      /\ match client_request env chalk_bold_green net fuel w with
         | Returned None _ => exists text, tail = [EvOutError text]
         | _ => tail = []
         end.
Proof.
  induction fuel as [|fuel IH]; intros w w1 Hfinal; [discriminate|].
  cbn [client_request cluster_request] in Hfinal |- *.
  destruct (net (sent w)) as [data|e].
  - inversion Hfinal; subst. exists 1, []. cbn. repeat split; lia.
  - destruct (JsString.includes (message e) "No service with id").
    + destruct (response e) as [[|m rest]|]; inversion Hfinal; subst.
      * exists 1, []. cbn. repeat split; lia.
      * exists 1, [EvOutError (m ++ " Please check if you are logged in to the right account.")%string].
        cbn. rewrite <- app_assoc. repeat split; eauto; lia.
      * exists 1, []. cbn. repeat split; lia.
    + destruct (JsString.startsWith (message e) "No valid session").
      * destruct (IH _ _ Hfinal) as (n & tail & Hn & Hsent & Hevents & Htail).
        exists (S n), tail. cbn in Hsent, Hevents. repeat split; [lia|lia| |exact Htail].
        rewrite Hevents, <- app_assoc. reflexivity.
      * destruct (JsString.includes (message e) "ECONNREFUSED"
                  && (JsString.includes (message e) "localhost"
                      || JsString.includes (message e) "127.0.0.1"));
          inversion Hfinal; subst.
        -- eexists 1, [EvOutError _]. cbn. rewrite <- app_assoc. repeat split; eauto; lia.
        -- exists 1, []. cbn. repeat split; lia.
Qed.

Lemma waitForMigration_unfold (net : nat -> NetOutcome MigrationStatusPayload) revision fuel w :
  waitForMigration env chalk_bold_green net revision (S fuel) w
  = match client_request env chalk_bold_green net (S fuel) w with
    | Returned (Some data) w1 =>
        if migration_done revision (migrationStatus data) then Returned tt w1
        else waitForMigration env chalk_bold_green net revision fuel (sleep 500 w1)
    | Returned None w1 => Threw TypeError w1
    | Threw e w1 => Threw e w1
    | OutOfFuel => OutOfFuel
    end.
Proof.
  cbn [waitForMigration]. unfold bind.
  destruct (client_request env chalk_bold_green net (S fuel) w) as [[data|] w1|e w1|];
    try reflexivity.
  cbn [destructure]. destruct (migration_done revision (migrationStatus data)); reflexivity.
Qed.

Lemma Forall_requests endpoint k :
  Forall (pollingEvent endpoint) (repeat (EvRequest endpoint) k).
Proof. apply Forall_forall. intros ev Hin. apply repeat_spec in Hin. subst ev. reflexivity. Qed.

(** X4. Whatever the service does, a run of [waitForMigration] that has
    ended, with a value or with an exception, has added to the trace only
    requests to the endpoint of the active cluster, timers of exactly
    500 ms and at most one hint: every event it added is one of these
    three, and no fetch is among them. It has sent as many requests as the
    trace shows; there are fewer timers than requests (it never waits
    before its first request nor after its last); and a hint, if one was
    given, is the last event of the run, which, [out.error] having
    returned, then ends with a [TypeError]. *)
Theorem waitForMigration_trace (net : nat -> NetOutcome MigrationStatusPayload) revision :
  forall fuel w w',
    final (waitForMigration env chalk_bold_green net revision fuel w) = Some w' ->
    exists suffix,
      events w' = events w ++ suffix
      /\ Forall (pollingEvent activeEndpoint) suffix
      /\ sent w' = sent w + requests suffix
      /\ Forall (fun ms => ms = 500%Z) (timers suffix)
      /\ length (timers suffix) < requests suffix
      /\ length (hints suffix) <= 1
      /\ (hints suffix <> [] ->
          waitForMigration env chalk_bold_green net revision fuel w = Threw TypeError w'
          /\ exists earlier text,
               suffix = earlier ++ [EvOutError text] /\ hints earlier = []).
Proof.
  induction fuel as [|fuel IH]; intros w w' Hfinal; [discriminate|].
  rewrite waitForMigration_unfold in Hfinal |- *.
  pose proof (client_request_trace net (S fuel) w) as Htrace.
  destruct (client_request env chalk_bold_green net (S fuel) w) as [[data|] w1|e w1|];
    [| | |discriminate].
  - destruct (Htrace w1 eq_refl) as (n & tail & Hn & Hsent & Hevents & ->).
    rewrite app_nil_r in Hevents.
    destruct (migration_done revision (migrationStatus data)).
    + inversion Hfinal; subst w'. exists (repeat (EvRequest activeEndpoint) n).
      rewrite timers_requests, hints_requests, requests_requests. cbn.
      repeat split; try assumption; try lia;
        [apply Forall_requests|constructor|congruence|congruence].
    + destruct (IH _ _ Hfinal) as (suffix & Hev & Hall & Hse & Hti & Hlt & Hhi & Hte).
      exists (repeat (EvRequest activeEndpoint) n ++ EvSleep 500 :: suffix).
      rewrite timers_app, hints_app, requests_app.
      rewrite timers_requests, hints_requests, requests_requests. cbn.
      cbn in Hev, Hse. split; [|split; [|split; [|split; [|split; [|split]]]]].
      * rewrite Hev, Hevents, <- !app_assoc. reflexivity.
      * apply Forall_app. split; [apply Forall_requests|].
        constructor; [reflexivity|exact Hall].
      * lia.
      * constructor; [reflexivity|exact Hti].
      * lia.
      * exact Hhi.
      * intros Hhint. destruct (Hte Hhint) as (Hthrew & earlier & text & -> & Hearlier).
        split; [exact Hthrew|].
        exists (repeat (EvRequest activeEndpoint) n ++ EvSleep 500 :: earlier), text.
        split; [rewrite <- app_assoc; reflexivity|].
        rewrite hints_app, hints_requests. exact Hearlier.
  - destruct (Htrace w1 eq_refl) as (n & tail & Hn & Hsent & Hevents & text & ->).
    inversion Hfinal; subst w'.
    exists (repeat (EvRequest activeEndpoint) n ++ [EvOutError text]).
    rewrite timers_app, hints_app, requests_app.
    rewrite timers_requests, hints_requests, requests_requests. cbn.
    split; [exact Hevents|]. split.
    { apply Forall_app. split; [apply Forall_requests|]. repeat constructor. }
    repeat split; try lia; [constructor|].
    exists (repeat (EvRequest activeEndpoint) n), text. split; [reflexivity|].
    apply hints_requests.
  - destruct (Htrace w1 eq_refl) as (n & tail & Hn & Hsent & Hevents & ->).
    rewrite app_nil_r in Hevents. inversion Hfinal; subst w'.
    exists (repeat (EvRequest activeEndpoint) n).
    rewrite timers_requests, hints_requests, requests_requests. cbn.
    repeat split; try assumption; try lia;
      [apply Forall_requests|constructor|congruence|congruence].
Qed.

(** ** [getClusterSafe] *)

Lemma reporting_incl (net : nat -> Cluster.t -> NetOutcome ClusterProjectPayload) :
  forall clusters first cluster,
    In cluster (reporting net first clusters) -> In cluster clusters.
Proof.
  induction clusters as [|c rest IH]; intros first cluster Hin; [contradiction|].
  cbn in Hin. destruct (reports (net first c)).
  - destruct Hin as [->|Hin]; [left; reflexivity|right; exact (IH _ _ Hin)].
  - right. exact (IH _ _ Hin).
Qed.

(** X5. [getClusterSafe] never resolves with [null]. It asks every
    configured cluster once; with exactly one cluster reporting the
    project it resolves with that cluster, which is one of the configured
    ones; with none it rejects with the "No cluster for ..." error that
    names the service and the stage; with several it rejects with the
    ambiguity error of [getCluster]. *)
Theorem getClusterSafe_verdict (net : nat -> Cluster.t -> NetOutcome ClusterProjectPayload)
    name stage w :
  let clusters := Environment.clusters env in
  let found := reporting net (sent w) clusters in
  let w' := {| sent := sent w + length clusters;
               events := events w
                         ++ map (fun c => EvRequest (Cluster.deployEndpoint c)) clusters |} in
  getClusterSafe env net name stage w
  = match found with
    | [] =>
        Threw (Raised (Error ("No cluster for " ++ JsString.dquote ++ name ++ "@" ++ stage
                              ++ JsString.dquote
                              ++ " found. Please make sure to deploy the stage " ++ stage)%string))
              w'
    | [cluster] => Returned cluster w'
    | _ => Threw (Raised (Error (ambiguous_message name stage found))) w'
    end
  /\ (forall cluster w'',
        getClusterSafe env net name stage w = Returned cluster w'' ->
        found = [cluster] /\ In cluster clusters /\ w'' = w').
Proof.
  intros clusters found w'.
  assert (Hrun : getClusterSafe env net name stage w
                 = match found with
                   | [] =>
                       Threw (Raised (Error ("No cluster for " ++ JsString.dquote ++ name ++ "@"
                                             ++ stage ++ JsString.dquote
                                             ++ " found. Please make sure to deploy the stage "
                                             ++ stage)%string))
                             w'
                   | [cluster] => Returned cluster w'
                   | _ => Threw (Raised (Error (ambiguous_message name stage found))) w'
                   end).
  { unfold getClusterSafe, bind, getCluster. rewrite getCluster_scan_reporting. cbn [app].
    fold clusters. fold found. fold w'.
    destruct found as [|c1 [|c2 rest]]; reflexivity. }
  split; [exact Hrun|].
  intros cluster w'' Hreturned. rewrite Hrun in Hreturned.
  assert (Hincl : forall c, In c found -> In c clusters)
    by (intros c; apply reporting_incl).
  destruct found as [|c1 [|c2 rest]]; inversion Hreturned; subst.
  repeat split. apply Hincl. left. reflexivity.
Qed.

(** ** The first test of the wrapper *)

(** X13. The test for "No service with id" comes first and does not look
    at the rest of the message: an error whose message contains it is
    never retried, also when the message starts with "No valid session",
    and never re-raised. The hint is the message of the first error of the
    response the error carries, followed by the advice to check the
    account; when the error carries no response errors the wrapper
    rejects with a [TypeError] and the original error is lost. This is so
    at the first request and after any number of session retries. *)
Theorem service_test_comes_first {T : Type} (net : nat -> NetOutcome T) k fuel w e :
  (forall i, i < k -> exists e', net (sent w + i) = NetErr e' /\ sessionExpired e' = true) ->
  net (sent w + k) = NetErr e ->
  JsString.includes (message e) "No service with id" = true ->
  k < fuel ->
  let w1 := backToBack activeEndpoint (S k) w in
  client_request env chalk_bold_green net fuel w
  = match response e with
    | Some (first :: _) =>
        Returned None
          (out_error (first ++ " Please check if you are logged in to the right account.")%string
                     w1)
    | _ => Threw TypeError w1
    end.
Proof.
  intros Hexpired Hnet Hservice Hfuel w1.
  replace fuel with (k + S (fuel - S k)) by lia.
  rewrite (client_request_retry net k _ w Hexpired).
  cbn [client_request cluster_request].
  change (sent (backToBack activeEndpoint k w)) with (sent w + k).
  rewrite Hnet, Hservice. fold activeEndpoint. rewrite issued_backToBack.
  destruct (response e) as [[|first rest]|]; reflexivity.
Qed.

End WrapperRetries.

(** ** [deleteProjects] *)

Lemma indexToString_inj (i j : nat) : indexToString i = indexToString j -> i = j.
Proof.
  unfold indexToString. intros H.
  assert (Hnonnil : forall n, Nat.to_uint n <> Decimal.Nil).
  { intros n Hn. pose proof (DecimalNat.Unsigned.to_of (Nat.to_uint n)) as Hto.
    rewrite DecimalNat.Unsigned.of_to in Hto. rewrite Hn in Hto. discriminate Hto. }
  apply (f_equal NilZero.uint_of_string) in H.
  rewrite !NilZero.usu in H by apply Hnonnil.
  injection H as H. exact (DecimalNat.Unsigned.to_uint_inj _ _ H).
Qed.

Lemma append_inj_l (a b c : string) : (a ++ b)%string = (a ++ c)%string -> b = c.
Proof. induction a as [|x a IH]; cbn; intros H; [exact H|]. injection H as H. exact (IH H). Qed.

Lemma variableName_inj (i j : nat) : variableName i = variableName j -> i = j.
Proof. unfold variableName. intros H. apply indexToString_inj, (append_inj_l _ _ _ H). Qed.

Lemma inputArguments_from (total : nat) :
  forall l index prev,
    total = index + length l ->
    JsArray.reduceFrom
      (fun prev (current : string) index =>
         (prev ++ "$projectId" ++ indexToString index ++ ": String!"
          ++ (if (index <? total - 1)%nat then ", " else EmptyString))%string)
      l index prev
    = (prev ++ String.concat ", " (map variableDeclaration (seq index (length l))))%string.
Proof.
  induction l as [|x l IH]; intros index prev Htotal.
  - cbn. rewrite append_empty_r. reflexivity.
  - cbn [JsArray.reduceFrom]. rewrite IH by (cbn in Htotal; lia).
    cbn [length seq map]. destruct l as [|y l].
    + cbn [length seq map String.concat].
      rewrite (proj2 (Nat.ltb_ge index (total - 1))) by (cbn in Htotal; lia).
      unfold variableDeclaration. rewrite ?append_empty_r, ?append_assoc. reflexivity.
    + rewrite (proj2 (Nat.ltb_lt index (total - 1))) by (cbn in Htotal; lia).
      cbn [length seq map].
      change (String.concat ", " (variableDeclaration index
                :: variableDeclaration (S index)
                :: map variableDeclaration (seq (S (S index)) (length l))))
        with (variableDeclaration index ++ ", "
              ++ String.concat ", " (variableDeclaration (S index)
                   :: map variableDeclaration (seq (S (S index)) (length l))))%string.
      unfold variableDeclaration. rewrite ?append_assoc. reflexivity.
Qed.

(** X6. The variable declarations [deleteProjects] builds with [reduce]
    are the declarations [$projectId0: String!], [$projectId1: String!],
    ... of as many variables as there are ids, joined by [", "]: a
    separator between any two of them, none after the last, and the empty
    text for no id. *)
Theorem deleteProjects_inputArguments_joined (projectIds : list string) :
  deleteProjects_inputArguments projectIds
  = String.concat ", " (map variableDeclaration (seq 0 (length projectIds))).
Proof.
  unfold deleteProjects_inputArguments, JsArray.reduce.
  rewrite (inputArguments_from (length projectIds)) by reflexivity.
  reflexivity.
Qed.

Lemma set_fresh {V : Type} (o : JsObject.t V) key v :
  ~ In key (JsObject.keys o) -> JsObject.set o key v = o ++ [(key, v)].
Proof.
  induction o as [|[k old] o IH]; intros Hfresh; [reflexivity|].
  cbn in Hfresh |- *. destruct (String.eqb_spec k key) as [->|Hne].
  - exfalso. apply Hfresh. left. reflexivity.
  - rewrite IH; [reflexivity|]. intros Hin. apply Hfresh. right. exact Hin.
Qed.

Lemma variables_from :
  forall l index prev,
    (forall key, In key (JsObject.keys prev) -> exists j, j < index /\ key = variableName j) ->
    JsArray.reduceFrom
      (fun prev (current : string) index =>
         JsObject.set prev ("projectId" ++ indexToString index)%string current)
      l index prev
    = prev ++ combine (map variableName (seq index (length l))) l.
Proof.
  induction l as [|x l IH]; intros index prev Hkeys.
  - cbn. rewrite app_nil_r. reflexivity.
  - cbn [JsArray.reduceFrom length seq map combine].
    fold (variableName index). rewrite set_fresh.
    + rewrite IH; [rewrite <- app_assoc; reflexivity|].
      intros key Hin. unfold JsObject.keys in Hin. rewrite map_app in Hin.
      apply in_app_or in Hin as [Hin|[<-|[]]].
      * destruct (Hkeys key Hin) as (j & Hj & ->). exists j. split; [lia|reflexivity].
      * exists index. split; [lia|reflexivity].
    + intros Hin. destruct (Hkeys _ Hin) as (j & Hj & Heq).
      apply variableName_inj in Heq. lia.
Qed.

Lemma get_variables_from :
  forall (l : list string) first i,
    first <= i ->
    JsObject.get (combine (map variableName (seq first (length l))) l) (variableName i)
    = nth_error l (i - first).
Proof.
  induction l as [|x l IH]; intros first i Hi.
  - cbn. destruct (i - first); reflexivity.
  - cbn [length seq map combine JsObject.get].
    destruct (String.eqb_spec (variableName first) (variableName i)) as [Heq|Hne].
    + apply variableName_inj in Heq. subst i. rewrite Nat.sub_diag. reflexivity.
    + assert (first < i) by (destruct (Nat.eq_dec first i); [subst; contradiction|lia]).
      rewrite IH by lia.
      replace (i - first) with (S (i - S first)) by lia. reflexivity.
Qed.

(** X7. The variables [deleteProjects] sends pair the names [projectId0],
    [projectId1], ... with the ids, in order: no assignment overwrites an
    earlier one, so there are as many variables as ids (also when an id
    occurs twice), and looking the i-th name up gives the i-th id. *)
Theorem deleteProjects_variables_lookup (projectIds : list string) :
  deleteProjects_variables projectIds
  = combine (map variableName (seq 0 (length projectIds))) projectIds
  /\ length (deleteProjects_variables projectIds) = length projectIds
  /\ (forall i,
        JsObject.get (deleteProjects_variables projectIds) (variableName i)
        = nth_error projectIds i).
Proof.
  assert (Heq : deleteProjects_variables projectIds
                = combine (map variableName (seq 0 (length projectIds))) projectIds).
  { unfold deleteProjects_variables, JsArray.reduce, JsObject.empty.
    rewrite variables_from; [reflexivity|]. intros key []. }
  split; [exact Heq|]. rewrite Heq. split.
  - rewrite length_combine, length_map, length_seq. apply Nat.min_id.
  - intros i. rewrite get_variables_from by lia. rewrite Nat.sub_0_r. reflexivity.
Qed.

Lemma get_app_fresh {V : Type} (o1 o2 : JsObject.t V) key :
  ~ In key (JsObject.keys o1) -> JsObject.get (o1 ++ o2) key = JsObject.get o2 key.
Proof.
  induction o1 as [|[k v] o1 IH]; intros Hfresh; [reflexivity|].
  cbn in Hfresh |- *. destruct (String.eqb_spec k key) as [->|Hne].
  - exfalso. apply Hfresh. left. reflexivity.
  - apply IH. intros Hin. apply Hfresh. right. exact Hin.
Qed.

Lemma deletedIds_own :
  forall (rest seen : JsObject.t DeleteResult) w,
    NoDup (JsObject.keys (seen ++ rest)) ->
    deletedIds (seen ++ rest) (JsObject.keys rest) w
    = Returned (map (fun entry => deletedId (snd entry)) rest) w.
Proof.
  induction rest as [|[key entry] rest IH]; intros seen w Hnodup; [reflexivity|].
  cbn [JsObject.keys map fst deletedIds snd].
  rewrite get_app_fresh.
  - cbn [JsObject.get]. rewrite String.eqb_refl. unfold bind.
    replace (seen ++ (key, entry) :: rest) with ((seen ++ [(key, entry)]) ++ rest)
      by (rewrite <- app_assoc; reflexivity).
    fold (JsObject.keys rest). rewrite IH; [reflexivity|].
    rewrite <- app_assoc. exact Hnodup.
  - unfold JsObject.keys in Hnodup. rewrite map_app in Hnodup. cbn in Hnodup.
    apply NoDup_remove_2 in Hnodup. intros Hin. apply Hnodup.
    apply in_or_app. left. exact Hin.
Qed.

Section DeleteProjects.

Variable env : Environment.t.
Variable chalk_bold_green : string -> string.

(** X8. [deleteProjects] reports what the service says it deleted, not
    what was asked for: when the service answers the mutation with an
    object (its keys distinct, as the keys of an object are), the method
    resolves with the [deletedId] of every entry of that object, in the
    order of its keys and as many as it has entries, whatever ids were
    passed in; it has sent one request. *)
Theorem deleteProjects_reports_answer
    (net : nat -> string -> JsObject.t string -> NetOutcome (JsObject.t DeleteResult))
    (projectIds : list string) fuel w (result : JsObject.t DeleteResult) :
  net (sent w) (deleteProjects_mutation projectIds) (deleteProjects_variables projectIds)
  = NetOk result ->
  NoDup (JsObject.keys result) ->
  exists deleted,
    deleteProjects env chalk_bold_green net projectIds (S fuel) w
    = Returned deleted
        (issued (EvRequest (Cluster.deployEndpoint (Environment.activeCluster env))) w)
    /\ deleted = map (fun entry => deletedId (snd entry)) result
    /\ length deleted = length (JsObject.keys result).
Proof.
  intros Hnet Hnodup. eexists. split; [|split; [reflexivity|]].
  - unfold deleteProjects, bind.
    rewrite (client_request_ok env chalk_bold_green _ fuel w result) by exact Hnet.
    cbn [destructure].
    exact (deletedIds_own result [] _ Hnodup).
  - unfold JsObject.keys. rewrite !length_map. reflexivity.
Qed.

End DeleteProjects.

(** ** Function logs *)

Section FunctionLogsProperties.

Variable env : Environment.t.
Variable chalk_bold_green : string -> string.

Let activeEndpoint : string := Cluster.deployEndpoint (Environment.activeCluster env).

(** X9. [getAllFunctionLogs] flattens the answer one level and loses
    nothing: when the project, its functions and their edges are all
    present it resolves with the logs of the first function, then those of
    the second, and so on, each in the order received. A log is returned
    exactly when it hangs under some function, and the number returned is
    the sum over the functions, so a project without functions gives the
    empty list, not [null]. When any of the three levels is missing it
    resolves with [null]. *)
Theorem getAllFunctionLogs_flattens (net : nat -> NetOutcome AllFunctionLogs.Payload)
    fuel w data :
  net (sent w) = NetOk data ->
  let w1 := issued (EvRequest activeEndpoint) w in
  (forall functionEdges,
      data = AllFunctionLogs.mkPayload
               (Some (AllFunctionLogs.mkProject
                        (Some (AllFunctionLogs.mkFunctions (Some functionEdges))))) ->
      exists logs,
        getAllFunctionLogs env chalk_bold_green net (S fuel) w = Returned (Some logs) w1
        /\ logs = concat (map logsOf functionEdges)
        /\ length logs = list_sum (map (fun edge => length (logsOf edge)) functionEdges)
        /\ (forall log,
              In log logs <-> exists edge, In edge functionEdges /\ In log (logsOf edge)))
  /\ (AllFunctionLogs.project data = None
      \/ (exists project,
            AllFunctionLogs.project data = Some project
            /\ (AllFunctionLogs.functions project = None
                \/ exists functions,
                     AllFunctionLogs.functions project = Some functions
                     /\ AllFunctionLogs.edges functions = None)) ->
      getAllFunctionLogs env chalk_bold_green net (S fuel) w = Returned None w1).
Proof.
  intros Hnet w1. split.
  - intros functionEdges ->. exists (concat (map logsOf functionEdges)).
    split; [|split; [reflexivity|split]].
    + unfold getAllFunctionLogs, bind.
      rewrite (client_request_ok env chalk_bold_green net fuel w _ Hnet). reflexivity.
    + rewrite length_concat, map_map. reflexivity.
    + intros log. rewrite in_concat. split.
      * intros (logsHere & Hmap & Hlog). apply in_map_iff in Hmap as (edge & <- & Hedge).
        exists edge. split; assumption.
      * intros (edge & Hedge & Hlog). exists (logsOf edge). split; [|exact Hlog].
        apply in_map, Hedge.
  - intros Hmissing. unfold getAllFunctionLogs, bind.
    rewrite (client_request_ok env chalk_bold_green net fuel w _ Hnet). cbn [destructure].
    destruct Hmissing as [->|(project & -> & [->|(functions & -> & ->)])]; reflexivity.
Qed.

(** X10. [getFunctionLogs] resolves with [null] exactly when the node is
    [null] or carries no logs (it is no function); otherwise it resolves
    with the node of every log edge, in order and as many as there are
    edges, so a function without logs gives the empty list. *)
Theorem getFunctionLogs_null_or_all (net : nat -> NetOutcome FunctionLogs.Payload)
    fuel w data :
  net (sent w) = NetOk data ->
  exists result,
    getFunctionLogs env chalk_bold_green net (S fuel) w
    = Returned result (issued (EvRequest activeEndpoint) w)
    /\ (result = None
        <-> FunctionLogs.node data = None
            \/ FunctionLogs.node data = Some (FunctionLogs.mkNode None))
    /\ (forall logs,
          FunctionLogs.node data = Some (FunctionLogs.mkNode (Some logs)) ->
          exists entries,
            result = Some entries
            /\ length entries = length (edges logs)
            /\ forall i edge, nth_error (edges logs) i = Some edge ->
                              nth_error entries i = Some (node edge)).
Proof.
  intros Hnet. unfold getFunctionLogs, bind.
  rewrite (client_request_ok env chalk_bold_green net fuel w _ Hnet). cbn [destructure].
  destruct data as [[[[logs|]]|]]; cbn [FunctionLogs.node FunctionLogs.logs];
    eexists; (split; [reflexivity|]); split.
  - split; [discriminate|]. intros [H|H]; discriminate H.
  - intros logs' H. injection H as <-. eexists. split; [reflexivity|].
    split; [apply length_map|].
    intros i edge Hi. rewrite nth_error_map, Hi. reflexivity.
  - split; [right; reflexivity|reflexivity].
  - intros logs H. discriminate H.
  - split; [left; reflexivity|reflexivity].
  - intros logs H. discriminate H.
Qed.

End FunctionLogsProperties.

(** ** Names of functions *)

Section FunctionNames.

Variable env : Environment.t.
Variable chalk_bold_green : string -> string.

(** X11. A function of the project is always found by its own name.
    Normalising a name twice changes nothing more, so for every function
    [fn] in the project's list, asking [getFunction] for its name, for its
    normalised name, or for any name that normalises alike, never gives
    [null]: it gives a function of the list with the same normalised
    name, which is [fn] itself unless an earlier function of the list
    shares that normalised name. *)
Theorem getFunction_finds_listed (net : nat -> NetOutcome FunctionsPayload)
    fuel w fns w1 fn asked :
  getFunctions env chalk_bold_green net fuel w = Returned fns w1 ->
  In fn fns ->
  normalizeName asked = normalizeName (FunctionInfo.name fn) ->
  normalizeName (normalizeName (FunctionInfo.name fn)) = normalizeName (FunctionInfo.name fn)
  /\ exists found,
       getFunction env chalk_bold_green net asked fuel w = Returned (Some found) w1
       /\ In found fns
       /\ normalizeName (FunctionInfo.name found) = normalizeName (FunctionInfo.name fn)
       /\ ((forall before after,
              fns = before ++ fn :: after ->
              Forall (fun other => normalizeName (FunctionInfo.name other)
                                   <> normalizeName (FunctionInfo.name fn)) before ->
              found = fn)).
Proof.
  intros Hfns Hin Hasked. split; [apply normalizeName_idempotent|].
  unfold getFunction, bind. rewrite Hfns.
  pose proof (find_first (nameMatches asked) fns) as Hfind.
  change (find (fun fn0 => (normalizeName (FunctionInfo.name fn0) =? normalizeName asked)%string) fns)
    with (find (nameMatches asked) fns).
  destruct (find (nameMatches asked) fns) as [found|] eqn:Hfound.
  - destruct Hfind as (before & after & Heq & Hmatch & Hnone).
    exists found. split; [reflexivity|]. split; [|split].
    + rewrite Heq. apply in_or_app. right. left. reflexivity.
    + apply String.eqb_eq in Hmatch. congruence.
    + intros before' after' Heq' Hbefore'.
      assert (Hfn : nameMatches asked fn = true)
        by (apply String.eqb_eq; symmetry; exact Hasked).
      assert (Hbefore'' : Forall (fun y => nameMatches asked y = false) before').
      { eapply Forall_impl; [|exact Hbefore']. intros other Hother.
        apply String.eqb_neq. rewrite Hasked. exact Hother. }
      rewrite Heq' in Hfound. clear - Hfound Hfn Hbefore''.
      induction Hbefore'' as [|y before' Hy _ IH]; cbn in Hfound.
      * rewrite Hfn in Hfound. congruence.
      * rewrite Hy in Hfound. exact (IH Hfound).
  - exfalso. rewrite Forall_forall in Hfind. specialize (Hfind fn Hin).
    apply String.eqb_neq in Hfind. congruence.
Qed.

End FunctionNames.

(** ** Response keys of the migration fragment *)

Lemma outputTypeEqb_eq (a b : Sangria.OutputType) : outputTypeEqb a b = true -> a = b.
Proof.
  revert b. induction a as [| |a IH|a IH]; intros [| |b|b] H;
    try discriminate H; try reflexivity; f_equal; exact (IH b H).
Qed.

Lemma same_key_same_type (l : list (string * Sangria.OutputType)) :
  forallb (fun a => forallb (fun b => negb (fst a =? fst b)%string
                                      || outputTypeEqb (snd a) (snd b)) l) l = true ->
  forall key type1 type2, In (key, type1) l -> In (key, type2) l -> type1 = type2.
Proof.
  intros Hcheck key type1 type2 H1 H2.
  rewrite forallb_forall in Hcheck. specialize (Hcheck _ H1).
  rewrite forallb_forall in Hcheck. specialize (Hcheck _ H2).
  cbn [fst snd] in Hcheck. rewrite String.eqb_refl in Hcheck.
  apply outputTypeEqb_eq, Hcheck.
Qed.

(** X12. The aliases of [MIGRATION_FRAGMENT] keep its response mergeable.
    Whenever two of its inline fragments put fields the server declares
    under the same response key, the server gives those two fields the
    same type: where the declared types differ between step kinds
    ([typeName] and its neighbours on [CreateField] and [UpdateField],
    [values] on [CreateEnum] and [UpdateEnum], [newName] on [UpdateModel]
    and on the other update steps) the fragment selects one of them under
    an alias. *)
Theorem fragment_keys_agree_on_type :
  forall fragment1 fragment2 key type1 type2,
    In fragment1 stepFragments -> In fragment2 stepFragments ->
    In (key, type1) (answers fragment1) ->
    In (key, type2) (answers fragment2) ->
    type1 = type2.
Proof.
  intros fragment1 fragment2 key type1 type2 Hf1 Hf2 H1 H2.
  apply (same_key_same_type (flat_map answers stepFragments)) with (key := key).
  - vm_compute. reflexivity.
  - apply in_flat_map. exists fragment1. split; assumption.
  - apply in_flat_map. exists fragment2. split; assumption.
Qed.

(** X1 at a session that is expired for the first request. *)
Lemma client_retries_expired_session_witness :
  exists w',
    client_request demo_env plain expired_once 2 world0 = Returned (Some demo_projects) w'
    /\ sent w' = 2
    /\ events w' = [EvRequest "http://localhost:60000/cluster";
                    EvRequest "http://localhost:60000/cluster"]
    /\ timers (events w') = []
    /\ hints (events w') = [].
Proof.
  refine (proj1 (client_retries_expired_session demo_env plain expired_once world0)
            1 2 demo_projects _ eq_refl (le_n 2)).
  intros [|i] Hi; [|lia].
  exists (Error "No valid session: please log in"). split; reflexivity.
Defined.

(** X2 at a session that is expired for the first two requests. *)
Lemma methods_see_through_retries_witness :
  getDeployUrl demo_env plain
    (expiredUntil 2 (mkDeployUrlPayload "https://deploy.graph.cool/u/1")) 3 world0
  = Returned "https://deploy.graph.cool/u/1"
      {| sent := 3;
         events := [EvRequest "http://localhost:60000/cluster";
                    EvRequest "http://localhost:60000/cluster";
                    EvRequest "http://localhost:60000/cluster"] |}.
Proof.
  exact (proj1 (proj2 (@methods_see_through_retries demo_env plain unit
                         (SimpleProjectInfo.mk "blog") "https://deploy.graph.cool/u/1" tt
                         "blog" "https://export.graph.cool/e/1" 2 3 world0 (le_n 3)))).
Defined.

(** X3 at a refused connection to the local cluster. *)
Lemma methods_fail_after_hint_witness :
  listProjects demo_env plain (always_failing connection_refused) 1 world0
  = Threw TypeError
      {| sent := 1;
         events := [EvRequest "http://localhost:60000/cluster";
                    EvOutError "Could not connect to local cluster. Please use graphcool local up to start your local Graphcool cluster."] |}.
Proof.
  exact (proj1 (proj2 (proj2 (proj2
           (@methods_fail_after_hint demo_env plain unit connection_refused
              "resize" ["cj1"] 3 0 world0 eq_refl))))).
Defined.

(** X4 at a migration applied by the third status query. *)
Lemma waitForMigration_trace_witness :
  exists suffix,
    [EvRequest "http://localhost:60000/cluster"; EvSleep 500;
     EvRequest "http://localhost:60000/cluster"; EvSleep 500;
     EvRequest "http://localhost:60000/cluster"] = [] ++ suffix
    /\ Forall (pollingEvent "http://localhost:60000/cluster") suffix
    /\ 3 = 0 + requests suffix
    /\ Forall (fun ms => ms = 500%Z) (timers suffix)
    /\ length (timers suffix) < requests suffix
    /\ length (hints suffix) <= 1
    /\ (hints suffix <> [] ->
        waitForMigration demo_env plain (answering applied_at_third) 3 5 world0
        = Threw TypeError
            {| sent := 3;
               events := [EvRequest "http://localhost:60000/cluster"; EvSleep 500;
                          EvRequest "http://localhost:60000/cluster"; EvSleep 500;
                          EvRequest "http://localhost:60000/cluster"] |}
        /\ exists earlier text,
             suffix = earlier ++ [EvOutError text] /\ hints earlier = []).
Proof.
  exact (waitForMigration_trace demo_env plain (answering applied_at_third) 3 5 world0
           {| sent := 3;
              events := [EvRequest "http://localhost:60000/cluster"; EvSleep 500;
                         EvRequest "http://localhost:60000/cluster"; EvSleep 500;
                         EvRequest "http://localhost:60000/cluster"] |}
           eq_refl).
Defined.

(** X5 with the project in the shared cluster only. *)
Lemma getClusterSafe_verdict_witness :
  getClusterSafe demo_env only_shared "blog" "dev" world0
  = Returned shared_cluster
      {| sent := 2;
         events := [EvRequest "http://localhost:60000/cluster";
                    EvRequest "https://eu1.graph.cool/cluster"] |}.
Proof. exact (proj1 (getClusterSafe_verdict demo_env only_shared "blog" "dev" world0)). Defined.

(** X8 at an answer with two entries to a request for one id. *)
Lemma deleteProjects_reports_answer_witness :
  exists deleted,
    deleteProjects demo_env plain (fun _ _ _ => NetOk demo_deleted) ["cj1"] 1 world0
    = Returned deleted (issued (EvRequest "http://localhost:60000/cluster") world0)
    /\ deleted = ["cj1"; "cj2"]
    /\ length deleted = 2.
Proof.
  refine (deleteProjects_reports_answer demo_env plain (fun _ _ _ => NetOk demo_deleted)
            ["cj1"] 0 world0 demo_deleted eq_refl _).
  repeat constructor; cbn; intuition discriminate.
Defined.

(** X9 at two functions with two and one log entries. *)
Lemma getAllFunctionLogs_flattens_witness :
  exists logs,
    getAllFunctionLogs demo_env plain
      (fun _ => NetOk (AllFunctionLogs.mkPayload
                         (Some (AllFunctionLogs.mkProject
                                  (Some (AllFunctionLogs.mkFunctions (Some demo_all_logs)))))))
      1 world0
    = Returned (Some logs) (issued (EvRequest "http://localhost:60000/cluster") world0)
    /\ logs = [demo_log "l1" "sent"; demo_log "l2" "sent"; demo_log "l3" "resized"]
    /\ length logs = 3
    /\ (forall log,
          In log logs <-> exists edge, In edge demo_all_logs /\ In log (logsOf edge)).
Proof.
  exact (proj1 (getAllFunctionLogs_flattens demo_env plain _ 0 world0 _ eq_refl)
           demo_all_logs eq_refl).
Defined.

(** X10 at a node that is no function. *)
Lemma getFunctionLogs_null_or_all_witness :
  exists result,
    getFunctionLogs demo_env plain
      (fun _ => NetOk (FunctionLogs.mkPayload (Some (FunctionLogs.mkNode None)))) 1 world0
    = Returned result (issued (EvRequest "http://localhost:60000/cluster") world0)
    /\ (result = None
        <-> Some (FunctionLogs.mkNode None) = None
            \/ Some (FunctionLogs.mkNode None) = Some (FunctionLogs.mkNode None))
    /\ (forall logs,
          Some (FunctionLogs.mkNode None) = Some (FunctionLogs.mkNode (Some logs)) ->
          exists entries,
            result = Some entries
            /\ length entries = length (edges logs)
            /\ forall i edge, nth_error (edges logs) i = Some edge ->
                              nth_error entries i = Some (node edge)).
Proof.
  exact (getFunctionLogs_null_or_all demo_env plain _ 0 world0 _ eq_refl).
Defined.

(** X11: "resize", the third function, is found under its name, though
    the function found is "Resize", listed before it. *)
Lemma getFunction_finds_listed_witness :
  exists found,
    getFunction demo_env plain (fun _ => NetOk (mkFunctionsPayload demo_functions))
      "resize" 1 world0
    = Returned (Some found) (issued (EvRequest "http://localhost:60000/cluster") world0)
    /\ In found (map (fun edge => node edge) (edges demo_functions))
    /\ normalizeName (FunctionInfo.name found) = "resize"
    /\ (forall before after,
          map (fun edge => node edge) (edges demo_functions)
          = before
            ++ FunctionInfo.mk "resize" "f3" "WEBHOOK" (FunctionInfo.mkStats 0 0)
                 "RequestPipelineMutationFunction"
            :: after ->
          Forall (fun other => normalizeName (FunctionInfo.name other) <> "resize") before ->
          found
          = FunctionInfo.mk "resize" "f3" "WEBHOOK" (FunctionInfo.mkStats 0 0)
              "RequestPipelineMutationFunction").
Proof.
  exact (proj2 (getFunction_finds_listed demo_env plain
                  (fun _ => NetOk (mkFunctionsPayload demo_functions)) 1 world0 _ _
                  (FunctionInfo.mk "resize" "f3" "WEBHOOK" (FunctionInfo.mkStats 0 0)
                     "RequestPipelineMutationFunction")
                  "resize" eq_refl
                  (or_intror (or_intror (or_introl eq_refl))) eq_refl)).
Defined.

(** X12 at [newName], which [UpdateEnum] and [UpdateField] both select
    without an alias. *)
Lemma fragment_keys_agree_on_type_witness :
  In ("newName", Sangria.OptionType Sangria.StringType)
     (flat_map answers
        (filter (fun fragment => (fst fragment =? "UpdateEnum")%string) stepFragments))
  /\ In ("newName", Sangria.OptionType Sangria.StringType)
        (flat_map answers
           (filter (fun fragment => (fst fragment =? "UpdateField")%string) stepFragments))
  /\ Sangria.OptionType Sangria.StringType = Sangria.OptionType Sangria.StringType.
Proof.
  split; [cbn; tauto|]. split; [cbn; tauto|].
  refine (fragment_keys_agree_on_type (nth 8 stepFragments (EmptyString, []))
            (nth 9 stepFragments (EmptyString, [])) "newName" _ _ _ _ _ _);
    cbn; tauto.
Defined.

(** X13 at an error that matches the first two tests and has no response. *)
Lemma service_test_comes_first_witness :
  client_request demo_env plain (@always_failing ListProjectsPayload bare_service_error) 1 world0
  = Threw TypeError (issued (EvRequest "http://localhost:60000/cluster") world0).
Proof.
  refine (service_test_comes_first demo_env plain (always_failing bare_service_error)
            0 1 world0 bare_service_error _ eq_refl eq_refl (le_n 1)).
  intros i Hi. lia.
Defined.
